(** * Blogicum: visibility, ownership and feed rules of the blog views

    A shallow embedding of [blogicum/blog/models.py], [forms.py] and
    [views.py].  The relational store is a record of tables (lists of rows),
    a queryset is a list, the wall clock and the requesting user are explicit
    arguments, and a view either returns a response or raises. *)

From stdpp Require Import base decidable option list sorting strings.
From Stdlib Require Import ZArith Lia DecimalString.

Local Open Scope Z_scope.
Local Open Scope nat_scope.

(** ** models.py *)

(** [django.contrib.auth] user: only the key and the user name are used. *)
Module User.
Record t := mk { id : nat; username : string }.
End User.

Module Category.
Record t := mk {
  id : nat;
  title : string;
  description : string;
  slug : string;
  is_published : bool;
  created_at : Z }.
End Category.

Module Location.
Record t := mk {
  id : nat;
  name : string;
  is_published : bool;
  created_at : Z }.
End Location.

(** Foreign keys are stored as the key of the row they point to; the two
    [null=True] ones are optional. *)
Module Post.
Record t := mk {
  id : nat;
  title : string;
  text : string;
  pub_date : Z;
  author : nat;
  location : option nat;
  category : option nat;
  image : string;
  is_published : bool;
  created_at : Z }.
End Post.

Module Comment.
Record t := mk {
  id : nat;
  text : string;
  post : nat;
  created_at : Z;
  author : nat }.
End Comment.

Global Instance User_eq_dec : EqDecision User.t.
Proof. solve_decision. Defined.
Global Instance Category_eq_dec : EqDecision Category.t.
Proof. solve_decision. Defined.
Global Instance Location_eq_dec : EqDecision Location.t.
Proof. solve_decision. Defined.
Global Instance Post_eq_dec : EqDecision Post.t.
Proof. solve_decision. Defined.
Global Instance Comment_eq_dec : EqDecision Comment.t.
Proof. solve_decision. Defined.

(** The database: one table per model. *)
Record Store := mkStore {
  users : list User.t;
  categories : list Category.t;
  locations : list Location.t;
  posts : list Post.t;
  comments : list Comment.t }.

Global Instance Store_eq_dec : EqDecision Store.
Proof. solve_decision. Defined.

(** Constraints the database enforces: primary keys, [unique=True] on
    [Category.slug] and on the user name. *)
Definition unique_by {A B : Type} (key : A → B) (rows : list A) : Prop :=
  NoDup (key <$> rows).

Record wf_store (s : Store) : Prop := mk_wf {
  wf_user_pk : unique_by User.id (users s);
  wf_username : unique_by User.username (users s);
  wf_category_pk : unique_by Category.id (categories s);
  wf_slug : unique_by Category.slug (categories s);
  wf_post_pk : unique_by Post.id (posts s);
  wf_comment_pk : unique_by Comment.id (comments s) }.

(** ** The framework pieces the views call *)

Inductive Exception :=
  | Http404
  | PermissionDenied
  | DoesNotExist
  | MultipleObjectsReturned
  | AttributeError
  | ValueError
  | IntegrityError.

Inductive Result (A : Type) :=
  | Return (a : A)
  | Raise (e : Exception).
Arguments Return {A} a.
Arguments Raise {A} e.

Global Instance Exception_eq_dec : EqDecision Exception.
Proof. solve_decision. Defined.
Global Instance Result_eq_dec {A} `{EqDecision A} : EqDecision (Result A).
Proof. solve_decision. Defined.

Global Instance Result_ret : MRet Result := λ A a, Return a.
Global Instance Result_bind : MBind Result := λ A B f m,
  match m with
  | Return a => f a
  | Raise e => Raise e
  end.
Global Instance Result_fmap : FMap Result := λ A B f m,
  match m with
  | Return a => Return (f a)
  | Raise e => Raise e
  end.

(** [QuerySet.get] with keyword lookups: the single row matching, else an
    exception. *)
Definition get {A : Type} (P : A → Prop) `{∀ x, Decision (P x)}
    (rows : list A) : Result A :=
  match filter P rows with
  | [] => Raise DoesNotExist
  | [x] => Return x
  | _ => Raise MultipleObjectsReturned
  end.

Definition get_object_or_404 {A : Type} (P : A → Prop) `{∀ x, Decision (P x)}
    (rows : list A) : Result A :=
  match get P rows with
  | Raise DoesNotExist => Raise Http404
  | r => r
  end.

(** [request.user]. *)
Inductive RequestUser :=
  | AnonymousUser
  | AuthUser (u : User.t).

Global Instance RequestUser_eq_dec : EqDecision RequestUser.
Proof. solve_decision. Defined.

Definition is_authenticated (u : RequestUser) : bool :=
  match u with
  | AnonymousUser => false
  | AuthUser _ => true
  end.

(** [instance.author == request.user]: model instances are equal when their
    primary keys are; the anonymous user equals no row. *)
Definition author_eq (author_id : nat) (u : RequestUser) : bool :=
  match u with
  | AnonymousUser => false
  | AuthUser u => bool_decide (User.id u = author_id)
  end.

(** The related-object descriptor [post.category]: [None] for a null key,
    otherwise the category row fetched by key. *)
Definition Post_category (s : Store) (p : Post.t) : Result (option Category.t) :=
  match Post.category p with
  | None => Return None
  | Some cid => Some <$> get (λ c, Category.id c = cid) (categories s)
  end.

(** Attribute access [.is_published] on what [post.category] gave. *)
Definition getattr_is_published (c : option Category.t) : Result bool :=
  match c with
  | None => Raise AttributeError
  | Some c => Return (Category.is_published c)
  end.

(** ** Query sets *)

(** A post row with the [comment_count] annotation. *)
Record AnnotatedPost := mkAnnotated {
  obj : Post.t;
  comment_count : nat }.

Global Instance AnnotatedPost_eq_dec : EqDecision AnnotatedPost.
Proof. solve_decision. Defined.

(** [.annotate(comment_count=Count('comments'))]: [comments] is the
    [related_name] of [Comment.post]. *)
Definition Count_comments (s : Store) (p : Post.t) : nat :=
  length (filter (λ c, Comment.post c = Post.id p) (comments s)).

Definition annotate (s : Store) (qs : list Post.t) : list AnnotatedPost :=
  (λ p, mkAnnotated p (Count_comments s p)) <$> qs.

(** [.order_by('-pub_date')].  The database fixes no order among rows with
    equal [pub_date]; the sort used here is one admissible choice. *)
Definition newer_first (a b : AnnotatedPost) : Prop :=
  (Post.pub_date (obj b) ≤ Post.pub_date (obj a))%Z.

Global Instance newer_first_dec a b : Decision (newer_first a b).
Proof. unfold newer_first. apply _. Defined.

Definition order_by_pub_date_desc (qs : list AnnotatedPost) : list AnnotatedPost :=
  merge_sort newer_first qs.

(** [.order_by('created_at')] on comments. *)
Definition older_first (a b : Comment.t) : Prop :=
  (Comment.created_at a ≤ Comment.created_at b)%Z.

Global Instance older_first_dec a b : Decision (older_first a b).
Proof. unfold older_first. apply _. Defined.

Definition order_by_created_at (qs : list Comment.t) : list Comment.t :=
  merge_sort older_first qs.

Global Instance newer_first_trans : Transitive newer_first.
Proof. intros a b c. unfold newer_first. lia. Qed.
Global Instance newer_first_total : Total newer_first.
Proof. intros a b. unfold newer_first. lia. Qed.
Global Instance older_first_trans : Transitive older_first.
Proof. intros a b c. unfold older_first. lia. Qed.
Global Instance older_first_total : Total older_first.
Proof. intros a b. unfold older_first. lia. Qed.

(** The lookups that follow a foreign key inside [filter(...)]. *)
Definition category__is_published (s : Store) (p : Post.t) : Prop :=
  match Post.category p with
  | None => False
  | Some cid =>
      Exists (λ c, Category.id c = cid ∧ Category.is_published c = true)
             (categories s)
  end.

Global Instance category__is_published_dec s p :
  Decision (category__is_published s p).
Proof. unfold category__is_published. destruct (Post.category p); apply _. Defined.

Definition author__username (s : Store) (name : string) (p : Post.t) : Prop :=
  Exists (λ u, User.id u = Post.author p ∧ User.username u = name) (users s).

Global Instance author__username_dec s name p :
  Decision (author__username s name p).
Proof. unfold author__username. apply _. Defined.

(** ** Requests, responses and the view monad *)

Inductive Method := GET | POST.

(** [request.POST]: the submitted key/value pairs. *)
Definition QueryDict := list (string * string).

(** [form.errors]: field name and message. *)
Definition ErrorDict := list (string * string).

Record Request := mkRequest {
  user : RequestUser;
  method : Method;
  POST_data : QueryDict;
  page_kwarg : nat;          (* the [page] query parameter, 1 when absent *)
  path : string }.

(** Reversed URL names of the [blog] namespace and the login page. *)
Inductive Url :=
  | blog_post_detail (pk : nat)
  | blog_profile (username : string)
  | login_url (next : string).

Inductive Context :=
  | ListContext (page_obj : list AnnotatedPost)
                (category : option Category.t) (profile : option User.t)
  | DetailContext (object : Post.t) (comments_ : list Comment.t)
  | FormContext (form_data : option QueryDict) (form_errors : ErrorDict)
                (comment : option Comment.t)
  | DeleteContext (comment : Comment.t).

Inductive HttpResponse :=
  | TemplateResponse (template_name : string) (context : Context)
  | HttpResponseRedirect (url : Url).

Global Instance Method_eq_dec : EqDecision Method.
Proof. solve_decision. Defined.
Global Instance Url_eq_dec : EqDecision Url.
Proof. solve_decision. Defined.
Global Instance Context_eq_dec : EqDecision Context.
Proof. solve_decision. Defined.
Global Instance HttpResponse_eq_dec : EqDecision HttpResponse.
Proof. solve_decision. Defined.

(** What the exception middleware turns a view's outcome into. *)
Definition status_code (r : Result HttpResponse) : nat :=
  match r with
  | Return (TemplateResponse _ _) => 200
  | Return (HttpResponseRedirect _) => 302
  | Raise Http404 => 404
  | Raise PermissionDenied => 403
  | Raise _ => 500
  end.

(** A view that may write: it threads the store and may raise.  Writes made
    before an exception stay (no request-wide transaction is configured). *)
Definition View (A : Type) : Type := Store → Result A * Store.

Definition vret {A} (a : A) : View A := λ s, (Return a, s).
Definition vbind {A B} (m : View A) (f : A → View B) : View B := λ s,
  match m s with
  | (Return a, s') => f a s'
  | (Raise e, s') => (Raise e, s')
  end.
Definition vlift {A} (q : Store → Result A) : View A := λ s, (q s, s).
Definition vraise {A} (e : Exception) : View A := λ s, (Raise e, s).

Declare Scope view_scope.
Delimit Scope view_scope with view.
Notation "x <~ m ;; k" := (vbind m (λ x, k))
  (at level 100, m at next level, right associativity) : view_scope.
Local Open Scope view_scope.

Definition redirect {A} (url : Url) : A → Result HttpResponse * A :=
  λ s, (Return (HttpResponseRedirect url), s).
Definition render (template_name : string) (context : Context)
    : View HttpResponse :=
  vret (TemplateResponse template_name context).

(** [django.core.paginator.Paginator.page] as [ListView] calls it: an invalid
    page number becomes [Http404]; an empty list still has a first page. *)
Definition num_pages (per_page count : nat) : nat :=
  if decide (count = 0) then 1 else (count + per_page - 1) / per_page.

Definition paginate_queryset {A} (per_page : nat) (object_list : list A)
    (number : nat) : Result (list A) :=
  if decide (1 ≤ number ∧ number ≤ num_pages per_page (length object_list))
  then Return (take per_page (drop ((number - 1) * per_page) object_list))
  else Raise Http404.

(** [@login_required] and [LoginRequiredMixin.dispatch]. *)
Definition login_required {A} (view : Request → A → View HttpResponse)
    (request : Request) (a : A) : View HttpResponse :=
  if is_authenticated (user request) then view request a
  else redirect (login_url (path request)).

Definition LoginRequiredMixin_dispatch {A}
    (super_dispatch : Request → A → View HttpResponse)
    (request : Request) (a : A) : View HttpResponse :=
  if is_authenticated (user request) then super_dispatch request a
  else redirect (login_url (path request)).

(** ** Model instances as Python objects, and forms.py *)

(** The fields of [Post] in declaration order ([BaseModel] first). *)
Module PostField.
Inductive t :=
  | id | is_published | created_at | title | text | pub_date
  | author | location | category | image.

Definition type (f : t) : Type :=
  match f with
  | id | author => nat
  | is_published => bool
  | created_at | pub_date => Z
  | title | text | image => string
  | location | category => option nat
  end.
End PostField.

Module CommentField.
Inductive t := id | text | post | created_at | author.

Definition type (f : t) : Type :=
  match f with
  | id | post | author => nat
  | text => string
  | created_at => Z
  end.
End CommentField.

Global Instance PostField_eq_dec : EqDecision PostField.t.
Proof. solve_decision. Defined.
Global Instance CommentField_eq_dec : EqDecision CommentField.t.
Proof. solve_decision. Defined.

(** A [Post] object in memory: the key, [author] and the dates are unset
    until assigned or saved. *)
Module PostInstance.
Record t := mk {
  pk : option nat;
  is_published : bool;
  created_at : option Z;
  title : string;
  text : string;
  pub_date : option Z;
  author : option nat;
  location : option nat;
  category : option nat;
  image : string }.

(** [Post()] *)
Definition blank : t := mk None true None "" "" None None None None "".

Definition setattr (f : PostField.t) : PostField.type f → t → t :=
  match f as f0 return PostField.type f0 → t → t with
  | PostField.id => λ v i,
      mk (Some v) (is_published i) (created_at i) (title i) (text i)
         (pub_date i) (author i) (location i) (category i) (image i)
  | PostField.is_published => λ v i,
      mk (pk i) v (created_at i) (title i) (text i)
         (pub_date i) (author i) (location i) (category i) (image i)
  | PostField.created_at => λ v i,
      mk (pk i) (is_published i) (Some v) (title i) (text i)
         (pub_date i) (author i) (location i) (category i) (image i)
  | PostField.title => λ v i,
      mk (pk i) (is_published i) (created_at i) v (text i)
         (pub_date i) (author i) (location i) (category i) (image i)
  | PostField.text => λ v i,
      mk (pk i) (is_published i) (created_at i) (title i) v
         (pub_date i) (author i) (location i) (category i) (image i)
  | PostField.pub_date => λ v i,
      mk (pk i) (is_published i) (created_at i) (title i) (text i)
         (Some v) (author i) (location i) (category i) (image i)
  | PostField.author => λ v i,
      mk (pk i) (is_published i) (created_at i) (title i) (text i)
         (pub_date i) (Some v) (location i) (category i) (image i)
  | PostField.location => λ v i,
      mk (pk i) (is_published i) (created_at i) (title i) (text i)
         (pub_date i) (author i) v (category i) (image i)
  | PostField.category => λ v i,
      mk (pk i) (is_published i) (created_at i) (title i) (text i)
         (pub_date i) (author i) (location i) v (image i)
  | PostField.image => λ v i,
      mk (pk i) (is_published i) (created_at i) (title i) (text i)
         (pub_date i) (author i) (location i) (category i) v
  end.
End PostInstance.

Module CommentInstance.
Record t := mk {
  pk : option nat;
  text : string;
  post : option nat;
  created_at : option Z;
  author : option nat }.

(** [Comment()] *)
Definition blank : t := mk None "" None None None.

(** A row loaded from the table. *)
Definition of_row (c : Comment.t) : t :=
  mk (Some (Comment.id c)) (Comment.text c) (Some (Comment.post c))
     (Some (Comment.created_at c)) (Some (Comment.author c)).

Definition setattr (f : CommentField.t) : CommentField.type f → t → t :=
  match f as f0 return CommentField.type f0 → t → t with
  | CommentField.id => λ v i,
      mk (Some v) (text i) (post i) (created_at i) (author i)
  | CommentField.text => λ v i,
      mk (pk i) v (post i) (created_at i) (author i)
  | CommentField.post => λ v i,
      mk (pk i) (text i) (Some v) (created_at i) (author i)
  | CommentField.created_at => λ v i,
      mk (pk i) (text i) (post i) (Some v) (author i)
  | CommentField.author => λ v i,
      mk (pk i) (text i) (post i) (created_at i) (Some v)
  end.
End CommentInstance.

(** [Model._meta.fields] with what a model form may edit: not the automatic
    key and not [auto_now_add] columns. *)
Definition Post_meta_fields : list (PostField.t * bool) :=
  [ (PostField.id, false); (PostField.is_published, true);
    (PostField.created_at, false); (PostField.title, true);
    (PostField.text, true); (PostField.pub_date, true);
    (PostField.author, true); (PostField.location, true);
    (PostField.category, true); (PostField.image, true) ].

Definition Comment_meta_fields : list (CommentField.t * bool) :=
  [ (CommentField.id, false); (CommentField.text, true);
    (CommentField.post, true); (CommentField.created_at, false);
    (CommentField.author, true) ].

(** The [Meta.fields] / [Meta.exclude] test of [ModelForm]. *)
Definition in_form {F} `{EqDecision F}
    (fields : option (list F)) (exclude : list F) (f : F) : bool :=
  match fields with
  | Some fl => bool_decide (f ∈ fl)
  | None => true
  end && negb (bool_decide (f ∈ exclude)).

Definition fields_for_model {F} `{EqDecision F}
    (meta_fields : list (F * bool))
    (fields : option (list F)) (exclude : list F) : list F :=
  fst <$> filter (λ fe, snd fe = true ∧ in_form fields exclude (fst fe) = true)
                 meta_fields.

(** [construct_instance]: copy the cleaned value of every form field onto the
    instance; model fields outside the form are left as they are. *)
Definition construct_instance {F I} `{EqDecision F} (type : F → Type)
    (setattr : ∀ f, type f → I → I) (meta_fields : list (F * bool))
    (cleaned_data : ∀ f, option (type f))
    (fields : option (list F)) (exclude : list F) (instance : I) : I :=
  foldl (λ inst fe,
           if snd fe && in_form fields exclude (fst fe) then
             match cleaned_data (fst fe) with
             | Some v => setattr (fst fe) v inst
             | None => inst
             end
           else inst)
        instance meta_fields.

Module ProfileForm.
(** [fields = '__all__'] on the user model: nothing is excluded. *)
Definition exclude : list string := [].
End ProfileForm.

Module PostForm.
Definition exclude : list PostField.t := [PostField.author].
Definition fields : option (list PostField.t) := None.
Definition base_fields : list PostField.t :=
  fields_for_model Post_meta_fields fields exclude.
Definition cleaned_data : Type := ∀ f, option (PostField.type f).
Definition construct (cd : cleaned_data) (i : PostInstance.t) : PostInstance.t :=
  construct_instance PostField.type PostInstance.setattr Post_meta_fields
                     cd fields exclude i.
End PostForm.

Module CommentForm.
Definition fields : option (list CommentField.t) := Some [CommentField.text].
Definition exclude : list CommentField.t := [].
Definition base_fields : list CommentField.t :=
  fields_for_model Comment_meta_fields fields exclude.
Definition cleaned_data : Type := ∀ f, option (CommentField.type f).
Definition construct (cd : cleaned_data) (i : CommentInstance.t)
    : CommentInstance.t :=
  construct_instance CommentField.type CommentInstance.setattr
                     Comment_meta_fields cd fields exclude i.
End CommentForm.

(** The form-validation collaborator: [full_clean] of a bound form gives
    either the field errors or the cleaned data.  Field parsing and
    validators belong to the framework and stay abstract. *)
Class FormValidation := {
  CommentForm_full_clean : QueryDict → ErrorDict + CommentForm.cleaned_data;
  PostForm_full_clean : Store → QueryDict → ErrorDict + PostForm.cleaned_data }.

(** ** Writing to the tables *)

Definition set_posts (s : Store) (l : list Post.t) : Store :=
  mkStore (users s) (categories s) (locations s) l (comments s).
Definition set_comments (s : Store) (l : list Comment.t) : Store :=
  mkStore (users s) (categories s) (locations s) (posts s) l.

(** The next automatic key. *)
Definition fresh_pk (ids : list nat) : nat := S (max_list ids).

(** [UPDATE] the row with the same key, or [INSERT] when there is none. *)
Definition save_row {A} (pk : A → nat) (row : A) (rows : list A) : list A :=
  if decide (Exists (λ r, pk r = pk row) rows)
  then (λ r, if decide (pk r = pk row) then row else r) <$> rows
  else rows ++ [row].

(** [Model.save()]: the key defaults to a fresh one, [created_at] to the
    time of the first save; a missing [NOT NULL] column is refused. *)
Definition Post_save (now : Z) (i : PostInstance.t) : View Post.t := λ s,
  match PostInstance.pub_date i, PostInstance.author i with
  | Some d, Some a =>
      let row :=
        Post.mk (default (fresh_pk (Post.id <$> posts s)) (PostInstance.pk i))
                (PostInstance.title i) (PostInstance.text i) d a
                (PostInstance.location i) (PostInstance.category i)
                (PostInstance.image i) (PostInstance.is_published i)
                (default now (PostInstance.created_at i)) in
      (Return row, set_posts s (save_row Post.id row (posts s)))
  | _, _ => (Raise IntegrityError, s)
  end.

Definition Comment_save (now : Z) (i : CommentInstance.t) : View Comment.t := λ s,
  match CommentInstance.post i, CommentInstance.author i with
  | Some p, Some a =>
      let row :=
        Comment.mk (default (fresh_pk (Comment.id <$> comments s))
                            (CommentInstance.pk i))
                   (CommentInstance.text i) p
                   (default now (CommentInstance.created_at i)) a in
      (Return row, set_comments s (save_row Comment.id row (comments s)))
  | _, _ => (Raise IntegrityError, s)
  end.

(** [comment.delete()] *)
Definition Comment_delete (c : Comment.t) : View unit := λ s,
  (Return tt,
   set_comments s (filter (λ r, Comment.id r ≠ Comment.id c) (comments s))).

(** [str(request.user)] as [reverse] receives it. *)
Definition str_user (u : RequestUser) : string :=
  match u with
  | AnonymousUser => "AnonymousUser"
  | AuthUser u => User.username u
  end.

(** ** views.py *)

Definition POSTS_ON_PAGE : nat := 10.

Module PostListView.
Definition paginate_by : nat := POSTS_ON_PAGE.

Definition get_queryset (s : Store) (now : Z) : list AnnotatedPost :=
  order_by_pub_date_desc
    (annotate s
      (filter (λ p, Post.is_published p = true
                    ∧ category__is_published s p
                    ∧ (Post.pub_date p ≤ now)%Z)
              (posts s))).

(** [ListView.get] *)
Definition get (s : Store) (now : Z) (request : Request) : Result HttpResponse :=
  page_obj ← paginate_queryset paginate_by (get_queryset s now)
               (page_kwarg request);
  Return (TemplateResponse "blog/index.html" (ListContext page_obj None None)).
End PostListView.

(** [DispatchPostMixin]: the class it is mixed into supplies [super().dispatch]. *)
Module DispatchPostMixin.
Definition dispatch (super_dispatch : Request → nat → View HttpResponse)
    (request : Request) (pk : nat) : View HttpResponse :=
  instance <~ vlift (λ s, get_object_or_404 (λ p, Post.id p = pk) (posts s)) ;;
  if negb (author_eq (Post.author instance) (user request))
  then redirect (blog_post_detail pk)
  else super_dispatch request pk.
End DispatchPostMixin.

Module PostCreateView.
Definition template_name : string := "blog/create.html".

Definition get_success_url (request : Request) : Url :=
  blog_profile (str_user (user request)).

(** [form.instance.author = self.request.user], then the inherited
    [form_valid]: save and redirect. *)
Definition form_valid (now : Z) (request : Request) (instance : PostInstance.t)
    : View HttpResponse :=
  match user request with
  | AnonymousUser => vraise ValueError
  | AuthUser u =>
      let instance :=
        PostInstance.setattr PostField.author (User.id u) instance in
      _ <~ Post_save now instance ;;
      redirect (get_success_url request)
  end.

(** [LoginRequiredMixin], then [CreateView]'s [get] and [post]. *)
Definition dispatch `{FormValidation} (now : Z) (request : Request)
    : View HttpResponse :=
  LoginRequiredMixin_dispatch (λ request (_ : unit),
    match method request with
    | GET => render template_name (FormContext None [] None)
    | POST => λ s,
        match PostForm_full_clean s (POST_data request) with
        | inr cleaned =>
            form_valid now request
              (PostForm.construct cleaned PostInstance.blank) s
        | inl errors =>
            render template_name
              (FormContext (Some (POST_data request)) errors None) s
        end
    end) request tt.
End PostCreateView.

(** [UpdateView.dispatch] and [DeleteView.dispatch] are the framework's; the
    two classes below only put the mixins in front of them. *)
Module PostUpdateView.
Definition dispatch (UpdateView_dispatch : Request → nat → View HttpResponse)
    : Request → nat → View HttpResponse :=
  LoginRequiredMixin_dispatch (DispatchPostMixin.dispatch UpdateView_dispatch).
End PostUpdateView.

Module PostDeleteView.
Definition dispatch (DeleteView_dispatch : Request → nat → View HttpResponse)
    : Request → nat → View HttpResponse :=
  LoginRequiredMixin_dispatch (DispatchPostMixin.dispatch DeleteView_dispatch).
End PostDeleteView.

Module PostDetailView.
Definition template_name : string := "blog/detail.html".

Definition get_object (s : Store) (now : Z) (user : RequestUser) (pk : nat)
    : Result Post.t :=
  post_object ← get_object_or_404 (λ p, Post.id p = pk) (posts s);
  if negb (author_eq (Post.author post_object) user) then
    category ← Post_category s post_object;
    category_is_published ← getattr_is_published category;
    if category_is_published
       && bool_decide (Post.pub_date post_object ≤ now)%Z
       && Post.is_published post_object
    then Return post_object
    else Raise Http404
  else Return post_object.

(** The [comments] entry that [get_context_data] adds. *)
Definition get_context_data (s : Store) (pk : nat) : list Comment.t :=
  order_by_created_at (filter (λ c, Comment.post c = pk) (comments s)).

(** [DetailView.get] *)
Definition get (s : Store) (now : Z) (request : Request) (pk : nat)
    : Result HttpResponse :=
  object ← get_object s now (user request) pk;
  Return (TemplateResponse template_name
            (DetailContext object (get_context_data s pk))).
End PostDetailView.

Module CategoryPostListView.
Definition paginate_by : nat := POSTS_ON_PAGE.

Definition get_queryset (s : Store) (now : Z) (category_slug : string)
    : Result (list AnnotatedPost) :=
  category ← get_object_or_404
               (λ c, Category.slug c = category_slug
                     ∧ Category.is_published c = true)
               (categories s);
  Return (order_by_pub_date_desc
            (annotate s
              (filter (λ p, Post.is_published p = true
                            ∧ Post.category p = Some (Category.id category)
                            ∧ (Post.pub_date p ≤ now)%Z)
                      (posts s)))).

Definition get (s : Store) (now : Z) (request : Request)
    (category_slug : string) : Result HttpResponse :=
  object_list ← get_queryset s now category_slug;
  page_obj ← paginate_queryset paginate_by object_list (page_kwarg request);
  category ← get (λ c, Category.slug c = category_slug) (categories s);
  Return (TemplateResponse "blog/category.html"
            (ListContext page_obj (Some category) None)).
End CategoryPostListView.

Module ProfileListView.
Definition paginate_by : nat := POSTS_ON_PAGE.

Definition get_queryset (s : Store) (username : string) : list AnnotatedPost :=
  order_by_pub_date_desc
    (annotate s (filter (author__username s username) (posts s))).

(** The [profile] entry that [get_context_data] adds. *)
Definition get_context_data (s : Store) (username : string) : Result User.t :=
  get_object_or_404 (λ u, User.username u = username) (users s).

Definition get (s : Store) (request : Request) (username : string)
    : Result HttpResponse :=
  page_obj ← paginate_queryset paginate_by (get_queryset s username)
               (page_kwarg request);
  profile ← get_context_data s username;
  Return (TemplateResponse "blog/profile.html"
            (ListContext page_obj None (Some profile))).
End ProfileListView.

Module CommentCreateView.
Definition template_name : string := "blog/comment.html".

Definition get_success_url (post_id : nat) : Url := blog_post_detail post_id.

Definition form_valid (now : Z) (request : Request) (post_object : Post.t)
    (post_id : nat) (instance : CommentInstance.t) : View HttpResponse :=
  match user request with
  | AnonymousUser => vraise ValueError
  | AuthUser u =>
      let instance :=
        CommentInstance.setattr CommentField.author (User.id u) instance in
      let instance :=
        CommentInstance.setattr CommentField.post (Post.id post_object)
                                instance in
      _ <~ Comment_save now instance ;;
      redirect (get_success_url post_id)
  end.

(** The class's own [dispatch] runs first, then [LoginRequiredMixin], then
    [CreateView]'s [get] and [post]. *)
Definition dispatch `{FormValidation} (now : Z) (request : Request)
    (post_id : nat) : View HttpResponse :=
  post_object <~ vlift (λ s, get_object_or_404 (λ p, Post.id p = post_id)
                                               (posts s)) ;;
  LoginRequiredMixin_dispatch (λ request (_ : unit),
    match method request with
    | GET => render template_name (FormContext None [] None)
    | POST =>
        match CommentForm_full_clean (POST_data request) with
        | inr cleaned =>
            form_valid now request post_object post_id
              (CommentForm.construct cleaned CommentInstance.blank)
        | inl errors =>
            render template_name
              (FormContext (Some (POST_data request)) errors None)
        end
    end) request tt.
End CommentCreateView.

Definition add_comment `{FormValidation} (now : Z)
    : Request → nat → View HttpResponse :=
  login_required (λ request post_id,
    post <~ vlift (λ s, get_object_or_404 (λ p, Post.id p = post_id) (posts s)) ;;
    _ <~ match CommentForm_full_clean (POST_data request) with
         | inr cleaned =>
             let comment := CommentForm.construct cleaned CommentInstance.blank in
             match user request with
             | AnonymousUser => vraise ValueError
             | AuthUser u =>
                 let comment :=
                   CommentInstance.setattr CommentField.author (User.id u)
                                           comment in
                 let comment :=
                   CommentInstance.setattr CommentField.post (Post.id post)
                                           comment in
                 _ <~ Comment_save now comment ;; vret tt
             end
         | inl _ => vret tt
         end ;;
    redirect (blog_post_detail post_id)).

Definition edit_comment `{FormValidation} (now : Z)
    : Request → nat * nat → View HttpResponse :=
  login_required (λ request '(post_id, comment_id),
    instance <~ vlift (λ s, get_object_or_404
                              (λ c, Comment.id c = comment_id
                                    ∧ Comment.post c = post_id)
                              (comments s)) ;;
    if negb (author_eq (Comment.author instance) (user request))
    then redirect (blog_post_detail post_id)
    else
      match POST_data request with
      | [] =>
          (* [request.POST or None]: an unbound form is never valid *)
          render "blog/comment.html" (FormContext None [] (Some instance))
      | data =>
          match CommentForm_full_clean data with
          | inr cleaned =>
              let comment :=
                CommentForm.construct cleaned
                  (CommentInstance.of_row instance) in
              _ <~ Comment_save now comment ;;
              redirect (blog_post_detail post_id)
          | inl errors =>
              render "blog/comment.html"
                (FormContext (Some data) errors (Some instance))
          end
      end).

Definition delete_comment
    : Request → nat * nat → View HttpResponse :=
  login_required (λ request '(post_id, comment_id),
    instance <~ vlift (λ s, get_object_or_404
                              (λ c, Comment.id c = comment_id
                                    ∧ Comment.post c = post_id)
                              (comments s)) ;;
    if negb (author_eq (Comment.author instance) (user request))
    then redirect (blog_post_detail post_id)
    else
      match method request with
      | POST =>
          _ <~ Comment_delete instance ;;
          redirect (blog_post_detail post_id)
      | GET => render "blog/comment.html" (DeleteContext instance)
      end).

(** ** What creating a row looks like

    A create view answers with a redirect and appends one row, written by the
    requester (and, for a comment, placed under the post of the URL). *)
Definition comment_created `{FormValidation} (s : Store) (request : Request)
    (post_id : nat) (r : Result HttpResponse) (s' : Store) : Prop :=
  ∃ u row cd,
    user request = AuthUser u
    ∧ CommentForm_full_clean (POST_data request) = inr cd
    ∧ r = Return (HttpResponseRedirect (blog_post_detail post_id))
    ∧ s' = set_comments s (comments s ++ [row])
    ∧ Comment.author row = User.id u
    ∧ Comment.post row = post_id
    ∧ Comment.id row ∉ Comment.id <$> comments s.

Definition post_created `{FormValidation} (s : Store) (request : Request)
    (r : Result HttpResponse) (s' : Store) : Prop :=
  ∃ u row cd,
    user request = AuthUser u
    ∧ PostForm_full_clean s (POST_data request) = inr cd
    ∧ r = Return (HttpResponseRedirect (blog_profile (User.username u)))
    ∧ s' = set_posts s (posts s ++ [row])
    ∧ Post.author row = User.id u
    ∧ Post.id row ∉ Post.id <$> posts s.

(** ** A small database and a validator, for running the views *)

Definition alice : User.t := User.mk 1 "alice".
Definition bob : User.t := User.mk 2 "bob".

Definition travel : Category.t := Category.mk 1 "Travel" "On the road" "travel" true 10.
Definition secret : Category.t := Category.mk 2 "Secret" "Hidden" "secret" false 10.

Definition demo_posts : list Post.t :=
  [ Post.mk 1 "Hello" "first post" 100 1 None (Some 1) "" true 90;
    Post.mk 2 "Draft" "not yet" 50 1 None (Some 1) "" false 40;
    Post.mk 3 "Later" "scheduled" 900 1 None (Some 1) "" true 95;
    Post.mk 4 "Hidden" "hidden category" 200 2 None (Some 2) "" true 190;
    Post.mk 5 "Orphan" "category deleted" 300 2 None None "" true 290;
    Post.mk 6 "Trip" "second author" 400 2 None (Some 1) "" true 390 ].

Definition demo_comments : list Comment.t :=
  [ Comment.mk 1 "nice" 1 150 2;
    Comment.mk 2 "thanks" 1 120 1;
    Comment.mk 3 "where?" 6 450 1 ].

Definition demo : Store :=
  mkStore [alice; bob] [travel; secret] [] demo_posts demo_comments.

Definition demo_now : Z := 500.

(** [QueryDict.get]: the last value submitted under the key. *)
Definition QueryDict_get (k : string) (q : QueryDict) : option string :=
  (λ r, snd (snd r)) <$> list_find (λ kv, fst kv = k) (reverse q).

Definition parse_nat (v : string) : option nat :=
  Nat.of_uint <$> NilEmpty.uint_of_string v.

(** A stand-in for the form collaborator.  The comment form requires a
    non-empty [text]; the post form requires a non-empty [title] and a numeric
    [pub_date].  It is more permissive than the framework: whatever else it
    can parse, an [author] key included, also lands in [cleaned_data]. *)
Definition demo_comment_clean (q : QueryDict)
    : ErrorDict + CommentForm.cleaned_data :=
  match QueryDict_get "text" q with
  | Some (String c t) =>
      inr (λ f, match f as f0 return option (CommentField.type f0) with
                | CommentField.text => Some (String c t)
                | CommentField.author => QueryDict_get "author" q ≫= parse_nat
                | CommentField.post => QueryDict_get "post" q ≫= parse_nat
                | _ => None
                end)
  | _ => inl [("text", "This field is required.")]
  end.

Definition demo_post_clean (s : Store) (q : QueryDict)
    : ErrorDict + PostForm.cleaned_data :=
  match QueryDict_get "title" q, QueryDict_get "pub_date" q ≫= parse_nat with
  | Some (String c t), Some d =>
      inr (λ f, match f as f0 return option (PostField.type f0) with
                | PostField.title => Some (String c t)
                | PostField.text => QueryDict_get "text" q
                | PostField.pub_date => Some (Z.of_nat d)
                | PostField.author => QueryDict_get "author" q ≫= parse_nat
                | PostField.category =>
                    Some (QueryDict_get "category" q ≫= parse_nat)
                | _ => None
                end)
  | Some (String _ _), None => inl [("pub_date", "Enter a valid date/time.")]
  | _, _ => inl [("title", "This field is required.")]
  end.

Definition demo_forms : FormValidation :=
  Build_FormValidation demo_comment_clean demo_post_clean.

Definition demo_request (u : RequestUser) (m : Method) (q : QueryDict) : Request :=
  mkRequest u m q 1 "/".

(** ** models.py: [__str__] and the [on_delete] rules *)



Definition Category_str (c : Category.t) : string := Category.title c.
Definition Location_str (l : Location.t) : string := Location.name l.
Definition Post_str (p : Post.t) : string := Post.title p.

Definition set_users (s : Store) (l : list User.t) : Store :=
  mkStore l (categories s) (locations s) (posts s) (comments s).

(** [Post.category] and [Post.location] are [on_delete=SET_NULL]. *)
Definition Post_null_category (cid : nat) (p : Post.t) : Post.t :=
  if decide (Post.category p = Some cid)
  then Post.mk (Post.id p) (Post.title p) (Post.text p) (Post.pub_date p)
               (Post.author p) (Post.location p) None (Post.image p)
               (Post.is_published p) (Post.created_at p)
  else p.

Definition Post_null_location (lid : nat) (p : Post.t) : Post.t :=
  if decide (Post.location p = Some lid)
  then Post.mk (Post.id p) (Post.title p) (Post.text p) (Post.pub_date p)
               (Post.author p) None (Post.category p) (Post.image p)
               (Post.is_published p) (Post.created_at p)
  else p.

(** [category.delete()]: the row goes, the posts stay without a category. *)
Definition Category_delete (c : Category.t) (s : Store) : Store :=
  mkStore (users s)
          (filter (λ r, Category.id r ≠ Category.id c) (categories s))
          (locations s)
          (Post_null_category (Category.id c) <$> posts s)
          (comments s).

Definition Location_delete (l : Location.t) (s : Store) : Store :=
  mkStore (users s) (categories s)
          (filter (λ r, Location.id r ≠ Location.id l) (locations s))
          (Post_null_location (Location.id l) <$> posts s)
          (comments s).

(** [Comment.post] is [on_delete=CASCADE]: [post.delete()] takes the post's
    comments with it. *)
Definition Post_delete (p : Post.t) (s : Store) : Store :=
  mkStore (users s) (categories s) (locations s)
          (filter (λ r, Post.id r ≠ Post.id p) (posts s))
          (filter (λ c, Comment.post c ≠ Post.id p) (comments s)).

(** [Post.author] and [Comment.author] are [on_delete=CASCADE]:
    [user.delete()] takes the user's posts, the comments on those posts, and
    the user's own comments. *)
Definition User_delete (u : User.t) (s : Store) : Store :=
  let doomed := Post.id <$> filter (λ p, Post.author p = User.id u) (posts s) in
  mkStore (filter (λ r, User.id r ≠ User.id u) (users s))
          (categories s) (locations s)
          (filter (λ p, Post.author p ≠ User.id u) (posts s))
          (filter (λ c, Comment.author c ≠ User.id u ∧ Comment.post c ∉ doomed)
                  (comments s)).

(** Every foreign key points to a row. *)
Record fk_ok (s : Store) : Prop := mk_fk {
  fk_post_author : ∀ p, p ∈ posts s → Post.author p ∈ User.id <$> users s;
  fk_post_category : ∀ p cid, p ∈ posts s → Post.category p = Some cid →
                              cid ∈ Category.id <$> categories s;
  fk_post_location : ∀ p lid, p ∈ posts s → Post.location p = Some lid →
                              lid ∈ Location.id <$> locations s;
  fk_comment_post : ∀ c, c ∈ comments s → Comment.post c ∈ Post.id <$> posts s;
  fk_comment_author : ∀ c, c ∈ comments s →
                           Comment.author c ∈ User.id <$> users s }.

(** ** The rest of views.py and forms.py *)

(** A post row loaded from the table, as [PostForm(instance=...)] gets it. *)
Definition PostInstance_of_row (p : Post.t) : PostInstance.t :=
  PostInstance.mk (Some (Post.id p)) (Post.is_published p)
                  (Some (Post.created_at p)) (Post.title p) (Post.text p)
                  (Some (Post.pub_date p)) (Some (Post.author p))
                  (Post.location p) (Post.category p) (Post.image p).

(** [PostUpdateView.get_success_url] and [PostDeleteView.get_success_url]. *)
Definition PostUpdateView_get_success_url (object : Post.t) : Url :=
  blog_post_detail (Post.id object).
Definition PostDeleteView_get_success_url (request : Request) : Url :=
  blog_profile (str_user (user request)).

(** [ProfileForm] validation: of the user model only [username] is kept in
    [User.t], so that is what the cleaned data carries. *)
Class ProfileFormValidation := {
  ProfileForm_full_clean : Store → User.t → QueryDict → ErrorDict + string }.

(** [EditProfileUpdateView]: [get_object] is [request.user], whatever the
    URL.  The form writes onto that very object, so [get_success_url], which
    reads [request.user] after the save, sees the new user name. *)
Definition EditProfileUpdateView_get_object (request : Request) : RequestUser :=
  user request.

Definition EditProfileUpdateView_dispatch `{ProfileFormValidation}
    (request : Request) : View HttpResponse :=
  LoginRequiredMixin_dispatch (λ request (_ : unit),
    match EditProfileUpdateView_get_object request with
    | AnonymousUser => vraise AttributeError
    | AuthUser u =>
        match method request with
        | GET => render "blog/user.html" (FormContext None [] None)
        | POST => λ s,
            match ProfileForm_full_clean s u (POST_data request) with
            | inr username =>
                let u' := User.mk (User.id u) username in
                (Return (HttpResponseRedirect
                           (blog_profile (str_user (AuthUser u')))),
                 set_users s (save_row User.id u' (users s)))
            | inl errors =>
                render "blog/user.html"
                  (FormContext (Some (POST_data request)) errors None) s
            end
        end
    end) request tt.

(** A profile form for running the view: the user name must not be empty. *)
Definition demo_profile_forms : ProfileFormValidation :=
  Build_ProfileFormValidation (λ _ _ q,
    match QueryDict_get "username" q with
    | Some (String c t) => inr (String c t)
    | _ => inl [("username", "This field is required.")]
    end).

(** * Properties *)

(** ** Looking rows up *)

Section get_lemmas.
Context {A : Type} (P : A → Prop) {Pdec : ∀ x, Decision (P x)}.

Lemma filter_nothing (rows : list A) :
  (∀ y, y ∈ rows → ¬ P y) → filter P rows = [].
Proof.
  induction rows as [|a rows IH]; intros Hno; [done|].
  rewrite filter_cons_False.
  - apply IH. intros y Hy. apply Hno. by right.
  - apply Hno. by left.
Qed.

Lemma filter_unique_row {B} (key : A → B) (rows : list A) (x : A) :
  unique_by key rows → x ∈ rows → P x →
  (∀ y, y ∈ rows → P y → key y = key x) →
  filter P rows = [x].
Proof.
  unfold unique_by.
  induction rows as [|a rows IH]; intros Hnd Hin HPx Hkey.
  { by apply elem_of_nil in Hin. }
  rewrite fmap_cons in Hnd. apply NoDup_cons in Hnd as [Hfresh Hnd].
  apply elem_of_cons in Hin as [->|Hin].
  - rewrite filter_cons_True by done. f_equal.
    apply filter_nothing. intros y Hy HPy. apply Hfresh.
    rewrite <- (Hkey y); [|by right|done].
    by apply list_elem_of_fmap_2.
  - rewrite filter_cons_False.
    + apply IH; try done. intros y Hy. apply Hkey. by right.
    + intros HPa. apply Hfresh. rewrite (Hkey a); [|by left|done].
      by apply list_elem_of_fmap_2.
Qed.

Lemma get_missing (rows : list A) :
  (∀ y, y ∈ rows → ¬ P y) → get P rows = Raise DoesNotExist.
Proof. intros H. unfold get. by rewrite filter_nothing. Qed.

Lemma get_unique {B} (key : A → B) (rows : list A) (x : A) :
  unique_by key rows → x ∈ rows → P x →
  (∀ y, y ∈ rows → P y → key y = key x) →
  get P rows = Return x.
Proof. intros. unfold get. by erewrite filter_unique_row. Qed.

Lemma get_Return (rows : list A) (x : A) :
  get P rows = Return x → x ∈ rows ∧ P x.
Proof.
  unfold get. intros H.
  assert (x ∈ filter P rows) as Hx.
  { destruct (filter P rows) as [|a [|b l]]; try discriminate.
    injection H as ->. by left. }
  apply list_elem_of_filter in Hx. tauto.
Qed.

Lemma get_DoesNotExist (rows : list A) :
  get P rows = Raise DoesNotExist → ∀ y, y ∈ rows → ¬ P y.
Proof.
  unfold get. intros H y Hy HPy.
  assert (y ∈ filter P rows) as Hin by (apply list_elem_of_filter; done).
  destruct (filter P rows) as [|a [|b l]]; try discriminate.
  by apply elem_of_nil in Hin.
Qed.

Lemma get_object_or_404_missing (rows : list A) :
  (∀ y, y ∈ rows → ¬ P y) → get_object_or_404 P rows = Raise Http404.
Proof. intros H. unfold get_object_or_404. by rewrite get_missing. Qed.

Lemma get_object_or_404_unique {B} (key : A → B) (rows : list A) (x : A) :
  unique_by key rows → x ∈ rows → P x →
  (∀ y, y ∈ rows → P y → key y = key x) →
  get_object_or_404 P rows = Return x.
Proof. intros. unfold get_object_or_404. by erewrite get_unique. Qed.

Lemma get_object_or_404_Return (rows : list A) (x : A) :
  get_object_or_404 P rows = Return x → x ∈ rows ∧ P x.
Proof.
  unfold get_object_or_404. intros H. apply get_Return.
  destruct (get P rows) as [a|[]]; congruence.
Qed.

Lemma get_object_or_404_Http404 (rows : list A) :
  get_object_or_404 P rows = Raise Http404 → ∀ y, y ∈ rows → ¬ P y.
Proof.
  intros H. apply get_DoesNotExist. unfold get_object_or_404, get in *.
  destruct (filter P rows) as [|? [|? ?]]; congruence.
Qed.
End get_lemmas.

(** A row is found by its primary key. *)
Lemma unique_by_eq {A B} (key : A → B) (rows : list A) (x y : A) :
  unique_by key rows → x ∈ rows → y ∈ rows → key x = key y → x = y.
Proof.
  unfold unique_by. induction rows as [|a rows IH]; intros Hnd Hx Hy Hk.
  { by apply elem_of_nil in Hx. }
  rewrite fmap_cons in Hnd. apply NoDup_cons in Hnd as [Hfresh Hnd].
  apply elem_of_cons in Hx as [->|Hx]; apply elem_of_cons in Hy as [->|Hy];
    try done.
  - exfalso. apply Hfresh. rewrite Hk. by apply list_elem_of_fmap_2.
  - exfalso. apply Hfresh. rewrite <- Hk. by apply list_elem_of_fmap_2.
  - by apply IH.
Qed.

Lemma unique_by_NoDup {A B} (key : A → B) (rows : list A) :
  unique_by key rows → NoDup rows.
Proof. unfold unique_by. apply NoDup_fmap_1. Qed.

Lemma get_post_by_pk (s : Store) (p : Post.t) :
  wf_store s → p ∈ posts s →
  get_object_or_404 (λ q, Post.id q = Post.id p) (posts s) = Return p.
Proof.
  intros Hwf Hp. apply (get_object_or_404_unique _ Post.id); auto.
  apply Hwf.
Qed.

Lemma get_category_by_pk (s : Store) (c : Category.t) :
  wf_store s → c ∈ categories s →
  get (λ q, Category.id q = Category.id c) (categories s) = Return c.
Proof.
  intros Hwf Hc. apply (get_unique _ Category.id); auto. apply Hwf.
Qed.

(** ** Ordering and annotation of a feed *)

Lemma feed_rows (s : Store) (qs : list Post.t) :
  obj <$> order_by_pub_date_desc (annotate s qs) ≡ₚ qs.
Proof.
  unfold order_by_pub_date_desc, annotate.
  rewrite merge_sort_Permutation, <- list_fmap_compose.
  induction qs as [|p qs IH]; [done|]. simpl. by rewrite IH.
Qed.

Lemma feed_counts (s : Store) (qs : list Post.t) (a : AnnotatedPost) :
  a ∈ order_by_pub_date_desc (annotate s qs) →
  comment_count a
  = length (filter (λ c, Comment.post c = Post.id (obj a)) (comments s)).
Proof.
  unfold order_by_pub_date_desc, annotate.
  rewrite merge_sort_Permutation.
  intros (p & -> & _)%list_elem_of_fmap. reflexivity.
Qed.

Lemma feed_sorted (s : Store) (qs : list Post.t) :
  StronglySorted newer_first (order_by_pub_date_desc (annotate s qs)).
Proof. apply StronglySorted_merge_sort; apply _. Qed.

(** Pages never hold more than [per_page] rows and are cut out of the list in
    order. *)
Lemma paginate_queryset_page {A} (per_page : nat) (l page : list A) (n : nat) :
  paginate_queryset per_page l n = Return page →
  page = take per_page (drop ((n - 1) * per_page) l) ∧ length page ≤ per_page.
Proof.
  unfold paginate_queryset. case_decide; [|discriminate].
  intros [= <-]. split; [done|]. rewrite length_take. lia.
Qed.

Lemma paginate_queryset_first {A} (per_page : nat) (l : list A) :
  0 < per_page →
  paginate_queryset per_page l 1 = Return (take per_page l).
Proof.
  intros Hpp. unfold paginate_queryset, num_pages.
  rewrite decide_True; [done|]. split; [lia|].
  case_decide; [lia|].
  apply Nat.div_le_lower_bound; lia.
Qed.

(** ** The detail view *)

(** Once the row is found, [get_object] is its visibility test. *)
Lemma get_object_found (s : Store) (now : Z) (u : RequestUser) (p : Post.t) :
  wf_store s → p ∈ posts s →
  PostDetailView.get_object s now u (Post.id p)
  = if negb (author_eq (Post.author p) u) then
      category ← Post_category s p;
      category_is_published ← getattr_is_published category;
      if category_is_published && bool_decide (Post.pub_date p ≤ now)%Z
         && Post.is_published p
      then Return p else Raise Http404
    else Return p.
Proof.
  intros Hwf Hp. unfold PostDetailView.get_object.
  by rewrite get_post_by_pk.
Qed.

Lemma get_object_Return_inv (s : Store) (now : Z) (u : RequestUser)
    (pk : nat) (p : Post.t) :
  PostDetailView.get_object s now u pk = Return p →
  p ∈ posts s ∧ Post.id p = pk.
Proof.
  unfold PostDetailView.get_object. intros H.
  destruct (get_object_or_404 _ (posts s)) as [q|e] eqn:E; [|discriminate].
  apply get_object_or_404_Return in E. simpl in H.
  enough (q = p) by (subst; done).
  destruct (negb _); [|congruence].
  destruct (Post_category s q) as [c|]; [|discriminate]. simpl in H.
  destruct (getattr_is_published c) as [b|]; [|discriminate]. simpl in H.
  destruct (_ && _); congruence.
Qed.

Lemma category__is_published_related (s : Store) (p : Post.t) :
  wf_store s →
  category__is_published s p ↔
  ∃ c, Post_category s p = Return (Some c) ∧ Category.is_published c = true.
Proof.
  intros Hwf. unfold category__is_published, Post_category.
  destruct (Post.category p) as [cid|].
  - rewrite Exists_exists. split.
    + intros (c & Hc & <- & Hpub). exists c.
      by rewrite get_category_by_pk.
    + intros (c & Hget & Hpub).
      destruct (get _ (categories s)) as [c'|] eqn:E; [|discriminate].
      injection Hget as ->. apply get_Return in E as [Hc Hid]. eauto.
  - split; [done|]. intros (c & [=] & _).
Qed.

(** The anonymous visitor is shown exactly the rows the feeds' filter keeps. *)
Lemma anonymous_sees_iff (s : Store) (now : Z) (p : Post.t) :
  wf_store s → p ∈ posts s →
  PostDetailView.get_object s now AnonymousUser (Post.id p) = Return p ↔
  Post.is_published p = true ∧ category__is_published s p
  ∧ (Post.pub_date p ≤ now)%Z.
Proof.
  intros Hwf Hp. rewrite get_object_found by done. simpl.
  rewrite category__is_published_related by done.
  destruct (Post_category s p) as [[c|]|e]; simpl.
  - destruct (Category.is_published c) eqn:Ec, (Post.is_published p) eqn:Ep,
      (bool_decide_reflect (Post.pub_date p ≤ now)%Z); simpl;
      (split; [try done; eauto 6
              |try done; intros (? & (c0 & [= <-] & ?) & ?);
               first [congruence | contradiction]]).
  - split; [done|]. intros (_ & (c & [=] & _) & _).
  - split; [done|]. intros (_ & (c & [=] & _) & _).
Qed.

Lemma demo_wf : wf_store demo.
Proof. split; unfold unique_by; apply (bool_decide_unpack _); by vm_compute. Qed.

(** For a post that has a category, the detail view is the policy of the
    specification: the author always gets the post, anybody else gets it when
    category, date and flag allow it, and [Http404] otherwise. *)
Lemma detail_view_with_category (s : Store) (now : Z) (u : RequestUser)
    (p : Post.t) (c : Category.t) :
  wf_store s → p ∈ posts s → c ∈ categories s →
  Post.category p = Some (Category.id c) →
  PostDetailView.get_object s now u (Post.id p)
  = if author_eq (Post.author p) u then Return p
    else if Category.is_published c
            && bool_decide (Post.pub_date p ≤ now)%Z
            && Post.is_published p
         then Return p else Raise Http404.
Proof.
  intros Hwf Hp Hc Hcat. rewrite get_object_found by done.
  destruct (author_eq _ _); [done|]. simpl.
  unfold Post_category. rewrite Hcat, get_category_by_pk by done.
  reflexivity.
Qed.

Lemma detail_view_author (s : Store) (now : Z) (u : User.t) (p : Post.t) :
  wf_store s → p ∈ posts s → Post.author p = User.id u →
  PostDetailView.get_object s now (AuthUser u) (Post.id p) = Return p.
Proof.
  intros Hwf Hp Ha. rewrite get_object_found by done. simpl.
  by rewrite bool_decide_true.
Qed.

(** C1: the post-detail operation returns the post to its author, and to
    anybody else iff category, date and flag allow it, answering Not-Found
    otherwise.  The code does so for posts that have a category
    ([detail_view_with_category], [detail_view_author]); for the existing post
    5 of [demo], whose category is null, a visitor who is not the author gets
    neither the post nor Not-Found: the view raises [AttributeError], a
    server error. *)
Theorem detail_view_orphan_post_is_server_error :
  Post.mk 5 "Orphan" "category deleted" 300 2 None None "" true 290 ∈ posts demo
  ∧ PostDetailView.get_object demo demo_now AnonymousUser 5 = Raise AttributeError
  ∧ status_code
      (PostDetailView.get demo demo_now (demo_request AnonymousUser GET []) 5)
    = 500.
Proof.
  split; [|split]; [|reflexivity..].
  apply (bool_decide_unpack _). by vm_compute.
Qed.

(** C2: for a post whose category is null the non-author visibility check
    should not raise and should treat the post as visible.  The code evaluates
    [post_object.category.is_published] on [None]: for every such post and
    every viewer other than the author it raises [AttributeError], whatever
    the date and flag are. *)
Theorem detail_view_null_category_raises (s : Store) (now : Z)
    (u : RequestUser) (p : Post.t) :
  wf_store s → p ∈ posts s → Post.category p = None →
  author_eq (Post.author p) u = false →
  PostDetailView.get_object s now u (Post.id p) = Raise AttributeError.
Proof.
  intros Hwf Hp Hcat Hu. rewrite get_object_found by done.
  rewrite Hu. simpl. unfold Post_category. by rewrite Hcat.
Qed.

Lemma detail_view_null_category_raises_witness :
  PostDetailView.get_object demo demo_now (AuthUser alice) 5
  = Raise AttributeError.
Proof.
  apply (detail_view_null_category_raises demo demo_now (AuthUser alice)
           (Post.mk 5 "Orphan" "category deleted" 300 2 None None "" true 290)).
  - exact demo_wf.
  - apply (bool_decide_unpack _). by vm_compute.
  - reflexivity.
  - reflexivity.
Defined.

(** C3: the global feed holds exactly the posts that are published, in a
    published category and not dated in the future, that is exactly the posts
    the detail view shows an anonymous visitor; each row once, with its number
    of comments, newest first, in pages of 10. *)
Theorem global_feed_spec (s : Store) (now : Z) :
  wf_store s →
  let feed := PostListView.get_queryset s now in
  (∀ p, p ∈ obj <$> feed ↔
        p ∈ posts s ∧ Post.is_published p = true
        ∧ (∃ c, Post_category s p = Return (Some c)
                ∧ Category.is_published c = true)
        ∧ (Post.pub_date p ≤ now)%Z)
  ∧ (∀ p, p ∈ obj <$> feed ↔
          p ∈ posts s
          ∧ PostDetailView.get_object s now AnonymousUser (Post.id p) = Return p)
  ∧ NoDup (obj <$> feed)
  ∧ (∀ a, a ∈ feed →
          comment_count a
          = length (filter (λ c, Comment.post c = Post.id (obj a)) (comments s)))
  ∧ StronglySorted (λ a b, (Post.pub_date (obj b) ≤ Post.pub_date (obj a))%Z) feed
  ∧ PostListView.paginate_by = 10
  ∧ (∀ n page, paginate_queryset PostListView.paginate_by feed n = Return page →
               page = take 10 (drop ((n - 1) * 10) feed) ∧ length page ≤ 10)
  ∧ (∀ request, page_kwarg request = 1 →
       PostListView.get s now request
       = Return (TemplateResponse "blog/index.html"
                   (ListContext (take 10 feed) None None))).
Proof.
  intros Hwf feed.
  assert (∀ p, p ∈ obj <$> feed ↔
               p ∈ posts s ∧ Post.is_published p = true
               ∧ category__is_published s p ∧ (Post.pub_date p ≤ now)%Z) as Hmem.
  { intros p. unfold feed, PostListView.get_queryset.
    rewrite feed_rows, list_elem_of_filter. tauto. }
  split_and!.
  - intros p. rewrite Hmem.
    by rewrite category__is_published_related.
  - intros p. rewrite Hmem. split.
    + intros (Hp & ?). split; [done|]. by apply anonymous_sees_iff.
    + intros (Hp & Hsee). split; [done|]. by apply anonymous_sees_iff in Hsee.
  - unfold feed, PostListView.get_queryset. rewrite feed_rows.
    apply NoDup_filter, (unique_by_NoDup Post.id), Hwf.
  - intros a Ha. by eapply feed_counts.
  - apply feed_sorted.
  - reflexivity.
  - intros n page Hpage. by apply paginate_queryset_page in Hpage.
  - intros request Hpage. unfold PostListView.get. rewrite Hpage.
    rewrite paginate_queryset_first; [done|].
    unfold PostListView.paginate_by, POSTS_ON_PAGE. lia.
Qed.

Lemma global_feed_spec_witness :
  wf_store demo
  ∧ Post.id <$> (obj <$> PostListView.get_queryset demo demo_now) = [6; 1]
  ∧ NoDup (obj <$> PostListView.get_queryset demo demo_now).
Proof.
  split; [exact demo_wf|]. split; [reflexivity|].
  exact (proj1 (proj2 (proj2 (global_feed_spec demo demo_now demo_wf)))).
Defined.

(** C9: the comment list of a post's detail page holds exactly the comments
    of that post, oldest first. *)
Theorem detail_comments_spec (s : Store) (pk : nat) :
  let cs := PostDetailView.get_context_data s pk in
  cs ≡ₚ filter (λ c, Comment.post c = pk) (comments s)
  ∧ (∀ c, c ∈ cs ↔ c ∈ comments s ∧ Comment.post c = pk)
  ∧ StronglySorted (λ a b, (Comment.created_at a ≤ Comment.created_at b)%Z) cs
  ∧ (∀ now request response,
       PostDetailView.get s now request pk = Return response →
       ∃ p, p ∈ posts s ∧ Post.id p = pk
            ∧ response = TemplateResponse "blog/detail.html" (DetailContext p cs)).
Proof.
  intros cs.
  assert (cs ≡ₚ filter (λ c, Comment.post c = pk) (comments s)) as Hperm.
  { apply merge_sort_Permutation. }
  split; [done|]. split; [|split].
  - intros c. rewrite Hperm, list_elem_of_filter. tauto.
  - apply StronglySorted_merge_sort; apply _.
  - intros now request response. unfold PostDetailView.get.
    destruct (PostDetailView.get_object s now (user request) pk) as [p|e] eqn:E;
      [|discriminate].
    intros [= <-]. apply get_object_Return_inv in E as [Hp Hid]. eauto.
Qed.

Lemma detail_comments_spec_witness :
  Comment.id <$> PostDetailView.get_context_data demo 1 = [2; 1]
  ∧ (∀ c, c ∈ PostDetailView.get_context_data demo 1 ↔
          c ∈ comments demo ∧ Comment.post c = 1).
Proof.
  split; [reflexivity|].
  exact (proj1 (proj2 (detail_comments_spec demo 1))).
Defined.

(** ** The profile and category feeds *)

Lemma author__username_iff (s : Store) (u : User.t) (p : Post.t) :
  wf_store s → u ∈ users s →
  author__username s (User.username u) p ↔ Post.author p = User.id u.
Proof.
  intros Hwf Hu. unfold author__username. rewrite Exists_exists. split.
  - intros (u' & Hu' & Hid & Hname).
    assert (u' = u) as ->
      by (apply (unique_by_eq User.username (users s)); [apply Hwf|done..]).
    done.
  - intros Ha. exists u. auto.
Qed.

Lemma paginate_queryset_Http404 {A} (per_page : nat) (l : list A) (n : nat)
    (k : list A → Result HttpResponse) :
  (∀ page, k page = Raise Http404) →
  paginate_queryset per_page l n ≫= k = Raise Http404.
Proof.
  intros Hk. destruct (paginate_queryset per_page l n) as [page|e] eqn:E.
  - apply Hk.
  - unfold paginate_queryset in E. case_decide; [discriminate|].
    by injection E as <-.
Qed.

(** C5: for a user name that names a user, the profile feed holds exactly the
    posts of that author, whatever their flags, dates and categories, and no
    post of anybody else, with comment counts and newest first; for a user
    name that names nobody the page is Not-Found. *)
Theorem profile_feed_spec (s : Store) (name : string) :
  wf_store s →
  (∀ u, u ∈ users s → User.username u = name →
     let feed := ProfileListView.get_queryset s name in
     obj <$> feed ≡ₚ filter (λ p, Post.author p = User.id u) (posts s)
     ∧ (∀ p, p ∈ obj <$> feed ↔ p ∈ posts s ∧ Post.author p = User.id u)
     ∧ (∀ a, a ∈ feed →
          comment_count a
          = length (filter (λ c, Comment.post c = Post.id (obj a)) (comments s)))
     ∧ StronglySorted
         (λ a b, (Post.pub_date (obj b) ≤ Post.pub_date (obj a))%Z) feed
     ∧ (∀ request, page_kwarg request = 1 →
          ProfileListView.get s request name
          = Return (TemplateResponse "blog/profile.html"
                      (ListContext (take 10 feed) None (Some u)))))
  ∧ ((∀ u, u ∈ users s → User.username u ≠ name) →
     ∀ request, ProfileListView.get s request name = Raise Http404).
Proof.
  intros Hwf. split.
  - intros u Hu <- feed.
    assert (obj <$> feed ≡ₚ filter (λ p, Post.author p = User.id u) (posts s))
      as Hperm.
    { unfold feed, ProfileListView.get_queryset. rewrite feed_rows.
      erewrite list_filter_iff; [done|].
      intros p. by apply author__username_iff. }
    split_and!.
    + done.
    + intros p. rewrite Hperm, list_elem_of_filter. tauto.
    + intros a Ha. by eapply feed_counts.
    + apply feed_sorted.
    + intros request Hpage. unfold ProfileListView.get. rewrite Hpage.
      rewrite paginate_queryset_first by (compute; lia). simpl.
      unfold ProfileListView.get_context_data.
      rewrite (get_object_or_404_unique _ User.username (users s) u);
        [done|apply Hwf|done..].
  - intros Hnone request. unfold ProfileListView.get.
    apply paginate_queryset_Http404. intros page.
    unfold ProfileListView.get_context_data.
    by rewrite get_object_or_404_missing.
Qed.

Lemma profile_feed_spec_witness :
  wf_store demo ∧ alice ∈ users demo
  ∧ Post.id <$> (obj <$> ProfileListView.get_queryset demo "alice") = [3; 1; 2]
  ∧ (∀ p, p ∈ obj <$> ProfileListView.get_queryset demo "alice" ↔
          p ∈ posts demo ∧ Post.author p = 1)
  ∧ ProfileListView.get demo (demo_request AnonymousUser GET []) "carol"
    = Raise Http404.
Proof.
  split; [exact demo_wf|].
  assert (alice ∈ users demo) as Halice by (apply (bool_decide_unpack _); by vm_compute).
  split; [done|]. split; [reflexivity|].
  destruct (profile_feed_spec demo "alice" demo_wf) as [Hsome _].
  destruct (profile_feed_spec demo "carol" demo_wf) as [_ Hnone].
  split.
  - exact (proj1 (proj2 (Hsome alice Halice eq_refl))).
  - apply Hnone. intros u Hu.
    repeat (apply elem_of_cons in Hu as [->|Hu]; [discriminate|]).
    by apply elem_of_nil in Hu.
Defined.

(** C6: the category feed is Not-Found when no category has the slug or the
    category is not published; otherwise it holds exactly the published posts
    of that category that are not dated in the future, with comment counts and
    newest first. *)
Theorem category_feed_spec (s : Store) (now : Z) (category_slug : string) :
  wf_store s →
  ((¬ (∃ c, c ∈ categories s ∧ Category.slug c = category_slug)
    ∨ (∃ c, c ∈ categories s ∧ Category.slug c = category_slug
            ∧ Category.is_published c = false)) →
   CategoryPostListView.get_queryset s now category_slug = Raise Http404
   ∧ ∀ request,
       CategoryPostListView.get s now request category_slug = Raise Http404)
  ∧ (∀ c, c ∈ categories s → Category.slug c = category_slug →
          Category.is_published c = true →
     ∃ feed,
       CategoryPostListView.get_queryset s now category_slug = Return feed
       ∧ obj <$> feed ≡ₚ
           filter (λ p, Post.is_published p = true
                        ∧ Post.category p = Some (Category.id c)
                        ∧ (Post.pub_date p ≤ now)%Z) (posts s)
       ∧ (∀ p, p ∈ obj <$> feed ↔
               p ∈ posts s ∧ Post.is_published p = true
               ∧ Post.category p = Some (Category.id c)
               ∧ (Post.pub_date p ≤ now)%Z)
       ∧ (∀ a, a ∈ feed →
            comment_count a
            = length (filter (λ c, Comment.post c = Post.id (obj a))
                             (comments s)))
       ∧ StronglySorted
           (λ a b, (Post.pub_date (obj b) ≤ Post.pub_date (obj a))%Z) feed
       ∧ (∀ request, page_kwarg request = 1 →
            CategoryPostListView.get s now request category_slug
            = Return (TemplateResponse "blog/category.html"
                        (ListContext (take 10 feed) (Some c) None)))).
Proof.
  intros Hwf. split.
  - intros Hhidden.
    assert (get_object_or_404
              (λ c, Category.slug c = category_slug
                    ∧ Category.is_published c = true) (categories s)
            = Raise Http404) as E.
    { apply get_object_or_404_missing. intros c Hc [Hslug Hpub].
      destruct Hhidden as [Hno|(c' & Hc' & Hslug' & Hpub')].
      - apply Hno. eauto.
      - assert (c' = c) as ->
          by (apply (unique_by_eq Category.slug (categories s));
              [apply Hwf|done..|congruence]).
        congruence. }
    unfold CategoryPostListView.get, CategoryPostListView.get_queryset.
    by rewrite E.
  - intros c Hc Hslug Hpub.
    assert (get_object_or_404
              (λ c, Category.slug c = category_slug
                    ∧ Category.is_published c = true) (categories s)
            = Return c) as E.
    { apply (get_object_or_404_unique _ Category.slug); [apply Hwf|done..|].
      intros y _ [Hy _]. congruence. }
    unfold CategoryPostListView.get, CategoryPostListView.get_queryset.
    rewrite E. simpl. eexists. split; [reflexivity|].
    split_and!.
    + apply feed_rows.
    + intros p. rewrite feed_rows, list_elem_of_filter. tauto.
    + intros a Ha. by eapply feed_counts.
    + apply feed_sorted.
    + intros request Hpage. rewrite Hpage.
      rewrite paginate_queryset_first by (compute; lia). simpl.
      rewrite (get_unique _ Category.slug (categories s) c);
        [done|apply Hwf|done..|].
      intros y _ Hy. congruence.
Qed.

Lemma category_feed_spec_witness :
  wf_store demo
  ∧ CategoryPostListView.get_queryset demo demo_now "secret" = Raise Http404
  ∧ CategoryPostListView.get_queryset demo demo_now "nowhere" = Raise Http404
  ∧ ∃ feed,
      CategoryPostListView.get_queryset demo demo_now "travel" = Return feed
      ∧ Post.id <$> (obj <$> feed) = [6; 1].
Proof.
  split; [exact demo_wf|].
  destruct (category_feed_spec demo demo_now "secret" demo_wf) as [Hsecret _].
  destruct (category_feed_spec demo demo_now "nowhere" demo_wf) as [Hnowhere _].
  destruct (category_feed_spec demo demo_now "travel" demo_wf) as [_ Htravel].
  split_and!.
  - apply Hsecret. right. exists secret. split_and!; [|done..].
    apply (bool_decide_unpack _). by vm_compute.
  - apply Hnowhere. left. intros (c & Hc & Hslug).
    repeat (apply elem_of_cons in Hc as [->|Hc]; [discriminate|]).
    by apply elem_of_nil in Hc.
  - destruct (Htravel travel) as (feed & Hfeed & _); [|done..|].
    { apply (bool_decide_unpack _). by vm_compute. }
    exists feed. split; [done|].
    vm_compute in Hfeed. injection Hfeed as <-. reflexivity.
Defined.

(** ** Forms and saving *)

Lemma PostForm_base_fields :
  PostForm.base_fields
  = [ PostField.is_published; PostField.title; PostField.text;
      PostField.pub_date; PostField.location; PostField.category;
      PostField.image ].
Proof. by vm_compute. Qed.

Lemma CommentForm_base_fields : CommentForm.base_fields = [CommentField.text].
Proof. by vm_compute. Qed.

(** The comment form writes [text] and nothing else. *)
Lemma CommentForm_construct_text (cd : CommentForm.cleaned_data)
    (i : CommentInstance.t) :
  CommentForm.construct cd i
  = match cd CommentField.text with
    | Some v => CommentInstance.setattr CommentField.text v i
    | None => i
    end.
Proof. unfold CommentForm.construct, construct_instance. by simpl. Qed.

(** [construct_instance] keeps whatever no field of the form writes to. *)
Lemma construct_instance_keeps {F I X} `{EqDecision F} (type : F → Type)
    (setattr : ∀ f, type f → I → I) (meta_fields : list (F * bool))
    (cd : ∀ f, option (type f)) (fields : option (list F)) (exclude : list F)
    (proj : I → X) (i : I) :
  Forall (λ fe, snd fe && in_form fields exclude (fst fe) = true →
                ∀ v j, proj (setattr (fst fe) v j) = proj j) meta_fields →
  proj (construct_instance type setattr meta_fields cd fields exclude i) = proj i.
Proof.
  unfold construct_instance. intros Hall. revert i.
  induction Hall as [|fe l Hfe Hall IH]; intros i; [done|].
  simpl. rewrite IH.
  destruct (snd fe && in_form fields exclude (fst fe)) eqn:E; [|done].
  destruct (cd (fst fe)); [|done]. by apply Hfe.
Qed.

(** The post form leaves key, author and creation date alone. *)
Lemma PostForm_construct_keeps (cd : PostForm.cleaned_data) (i : PostInstance.t) :
  PostInstance.pk (PostForm.construct cd i) = PostInstance.pk i
  ∧ PostInstance.author (PostForm.construct cd i) = PostInstance.author i
  ∧ PostInstance.created_at (PostForm.construct cd i) = PostInstance.created_at i.
Proof.
  unfold PostForm.construct.
  split_and!; apply construct_instance_keeps; unfold Post_meta_fields;
    repeat apply Forall_cons_2; try apply Forall_nil_2;
    intros Hform; try (by vm_compute in Hform); by intros v j.
Qed.

Lemma fresh_pk_fresh (ids : list nat) : fresh_pk ids ∉ ids.
Proof.
  intros Hin. apply max_list_elem_of_le in Hin. unfold fresh_pk in Hin. lia.
Qed.

Lemma save_row_insert {A} (pk : A → nat) (row : A) (rows : list A) :
  pk row ∉ pk <$> rows → save_row pk row rows = rows ++ [row].
Proof.
  intros Hfresh. unfold save_row. rewrite decide_False; [done|].
  rewrite Exists_exists. intros (r & Hr & Heq). apply Hfresh.
  rewrite <- Heq. by apply list_elem_of_fmap_2.
Qed.

Lemma get_comment_under_post (s : Store) (c : Comment.t) :
  wf_store s → c ∈ comments s →
  get_object_or_404
    (λ r, Comment.id r = Comment.id c ∧ Comment.post r = Comment.post c)
    (comments s) = Return c.
Proof.
  intros Hwf Hc. apply (get_object_or_404_unique _ Comment.id); auto.
  - apply Hwf.
  - by intros y _ [? _].
Qed.

(** ** Editing and deleting *)

(** Closes a goal saying that a view, once unfolded, returns a response. *)
Ltac view_returns :=
  do 2 eexists; split; [reflexivity|first [discriminate|done]].

(** Closes a goal saying that a view, once unfolded, left the store alone. *)
Ltac view_stays :=
  do 2 eexists; split; [reflexivity|left; reflexivity].

Section comment_views.
Context `{FormValidation}.
Variables (s : Store) (now : Z) (request : Request).
Hypothesis Hwf : wf_store s.
Hypothesis Hauth : is_authenticated (user request) = true.

(** Behind the login check, both comment views start with the same lookup. *)
Lemma edit_comment_missing (post_id comment_id : nat) :
  (∀ c, c ∈ comments s →
        ¬ (Comment.id c = comment_id ∧ Comment.post c = post_id)) →
  edit_comment now request (post_id, comment_id) s = (Raise Http404, s).
Proof.
  intros Hno. unfold edit_comment, login_required. rewrite Hauth.
  unfold vbind, vlift. by rewrite get_object_or_404_missing.
Qed.

Lemma delete_comment_missing (post_id comment_id : nat) :
  (∀ c, c ∈ comments s →
        ¬ (Comment.id c = comment_id ∧ Comment.post c = post_id)) →
  delete_comment request (post_id, comment_id) s = (Raise Http404, s).
Proof.
  intros Hno. unfold delete_comment, login_required. rewrite Hauth.
  unfold vbind, vlift. by rewrite get_object_or_404_missing.
Qed.

Lemma edit_comment_found (c : Comment.t) :
  c ∈ comments s →
  ∃ response s',
    edit_comment now request (Comment.post c, Comment.id c) s
    = (Return response, s')
    ∧ (author_eq (Comment.author c) (user request) = false →
       response = HttpResponseRedirect (blog_post_detail (Comment.post c))
       ∧ s' = s).
Proof.
  intros Hc. unfold edit_comment, login_required. rewrite Hauth.
  unfold vbind, vlift. rewrite get_comment_under_post by done.
  destruct (author_eq (Comment.author c) (user request)); simpl.
  - destruct (POST_data request) as [|kv q]; [view_returns|].
    destruct (CommentForm_full_clean (kv :: q)) as [errors|cd];
      [view_returns|].
    rewrite CommentForm_construct_text.
    destruct (cd CommentField.text); view_returns.
  - view_returns.
Qed.

Lemma delete_comment_found (c : Comment.t) :
  c ∈ comments s →
  ∃ response s',
    delete_comment request (Comment.post c, Comment.id c) s
    = (Return response, s')
    ∧ (author_eq (Comment.author c) (user request) = false →
       response = HttpResponseRedirect (blog_post_detail (Comment.post c))
       ∧ s' = s).
Proof.
  intros Hc. unfold delete_comment, login_required. rewrite Hauth.
  unfold vbind, vlift. rewrite get_comment_under_post by done.
  destruct (author_eq (Comment.author c) (user request)); simpl.
  - destruct (method request); view_returns.
  - view_returns.
Qed.

(** Either a comment with this key sits under this post, or the lookup
    fails for one of the two reasons of the specification. *)
Lemma comment_lookup_cases (post_id comment_id : nat) :
  (∃ c, c ∈ comments s ∧ Comment.id c = comment_id
        ∧ Comment.post c = post_id
        ∧ ¬ (∃ c', c' ∈ comments s ∧ Comment.id c' = comment_id
                   ∧ Comment.post c' ≠ post_id))
  ∨ ((∀ c, c ∈ comments s →
           ¬ (Comment.id c = comment_id ∧ Comment.post c = post_id))
     ∧ (¬ (∃ c, c ∈ comments s ∧ Comment.id c = comment_id)
        ∨ (∃ c, c ∈ comments s ∧ Comment.id c = comment_id
                ∧ Comment.post c ≠ post_id))).
Proof.
  destruct (decide (Exists (λ c, Comment.id c = comment_id) (comments s)))
    as [Hex|Hno].
  - apply Exists_exists in Hex as (c & Hc & Hid).
    destruct (decide (Comment.post c = post_id)) as [Hpost|Hpost].
    + left. exists c. split_and!; try done.
      intros (c' & Hc' & Hid' & Hpost').
      assert (c' = c) as ->
        by (apply (unique_by_eq Comment.id (comments s));
            [apply Hwf|done..|congruence]).
      done.
    + right. split; [|right; eauto].
      intros c' Hc' [Hid' Hpost'].
      assert (c' = c) as ->
        by (apply (unique_by_eq Comment.id (comments s));
            [apply Hwf|done..|congruence]).
      done.
  - right. split; [|left].
    + intros c Hc [Hid _]. apply Hno, Exists_exists. eauto.
    + intros (c & Hc & Hid). apply Hno, Exists_exists. eauto.
Qed.
End comment_views.

(** C7: for a logged-in viewer the comment edit and delete operations answer
    Not-Found iff no comment has the given key or the comment belongs to a
    different post; a comment that sits under the given post is never
    Not-Found. *)
Theorem comment_views_not_found `{FormValidation} (s : Store) (now : Z)
    (request : Request) (post_id comment_id : nat) :
  wf_store s → is_authenticated (user request) = true →
  (fst (edit_comment now request (post_id, comment_id) s) = Raise Http404 ↔
   ¬ (∃ c, c ∈ comments s ∧ Comment.id c = comment_id)
   ∨ (∃ c, c ∈ comments s ∧ Comment.id c = comment_id
           ∧ Comment.post c ≠ post_id))
  ∧ (fst (delete_comment request (post_id, comment_id) s) = Raise Http404 ↔
     ¬ (∃ c, c ∈ comments s ∧ Comment.id c = comment_id)
     ∨ (∃ c, c ∈ comments s ∧ Comment.id c = comment_id
             ∧ Comment.post c ≠ post_id))
  ∧ (∀ c, c ∈ comments s → Comment.id c = comment_id →
          Comment.post c = post_id →
          fst (edit_comment now request (post_id, comment_id) s) ≠ Raise Http404
          ∧ fst (delete_comment request (post_id, comment_id) s)
            ≠ Raise Http404).
Proof.
  intros Hwf Hauth.
  destruct (comment_lookup_cases s Hwf post_id comment_id)
    as [(c & Hc & <- & <- & Hnot)|[Hno Hwhy]].
  - destruct (edit_comment_found s now request Hwf Hauth c Hc)
      as (r1 & s1 & -> & _).
    destruct (delete_comment_found s request Hwf Hauth c Hc)
      as (r2 & s2 & -> & _).
    simpl. split_and!.
    + split; [done|]. intros [Hnone|Hother]; [|done].
      exfalso. apply Hnone. eauto.
    + split; [done|]. intros [Hnone|Hother]; [|done].
      exfalso. apply Hnone. eauto.
    + done.
  - rewrite edit_comment_missing, delete_comment_missing by done. simpl.
    split_and!; [done..|].
    intros c Hc Hid Hpost. exfalso. by apply (Hno c).
Qed.

Lemma comment_views_not_found_witness :
  wf_store demo
  ∧ fst (@edit_comment demo_forms 600
           (demo_request (AuthUser bob) POST [("text", "x")]) (6, 1) demo)
    = Raise Http404
  ∧ fst (delete_comment (demo_request (AuthUser bob) POST []) (1, 9) demo)
    = Raise Http404
  ∧ fst (@edit_comment demo_forms 600
           (demo_request (AuthUser bob) POST [("text", "x")]) (1, 1) demo)
    ≠ Raise Http404.
Proof.
  split; [exact demo_wf|].
  pose proof (@comment_views_not_found demo_forms demo 600
                (demo_request (AuthUser bob) POST [("text", "x")]) 6 1
                demo_wf eq_refl) as (Hedit & _ & _).
  pose proof (@comment_views_not_found demo_forms demo 600
                (demo_request (AuthUser bob) POST []) 1 9
                demo_wf eq_refl) as (_ & Hdelete & _).
  pose proof (@comment_views_not_found demo_forms demo 600
                (demo_request (AuthUser bob) POST [("text", "x")]) 1 1
                demo_wf eq_refl) as (_ & _ & Hfound).
  split_and!.
  - apply Hedit. right. exists (Comment.mk 1 "nice" 1 150 2).
    split_and!; [|done..]. apply (bool_decide_unpack _). by vm_compute.
  - apply Hdelete. left. intros (c & Hc & Hid).
    repeat (apply elem_of_cons in Hc as [->|Hc]; [discriminate|]).
    by apply elem_of_nil in Hc.
  - apply (Hfound (Comment.mk 1 "nice" 1 150 2)); [|done..].
    apply (bool_decide_unpack _). by vm_compute.
Defined.

Lemma author_eq_other (u : User.t) (author_id : nat) :
  author_id ≠ User.id u → author_eq author_id (AuthUser u) = false.
Proof. intros Hne. simpl. by rewrite bool_decide_false. Qed.

Lemma DispatchPostMixin_other (super_dispatch : Request → nat → View HttpResponse)
    (s : Store) (request : Request) (p : Post.t) :
  wf_store s → p ∈ posts s →
  author_eq (Post.author p) (user request) = false →
  DispatchPostMixin.dispatch super_dispatch request (Post.id p) s
  = (Return (HttpResponseRedirect (blog_post_detail (Post.id p))), s).
Proof.
  intros Hwf Hp Hu. unfold DispatchPostMixin.dispatch, vbind, vlift.
  rewrite get_post_by_pk by done. by rewrite Hu.
Qed.

(** C4: a logged-in viewer who is not the author of a post or comment and
    asks to edit or delete it is redirected to the detail page (of the post,
    or of the comment's post); the store is left as it was and nothing is
    raised. *)
Theorem non_author_is_redirected `{FormValidation} (s : Store) (now : Z)
    (request : Request) (u : User.t) :
  wf_store s → user request = AuthUser u →
  (∀ p, p ∈ posts s → Post.author p ≠ User.id u →
     ∀ UpdateView_dispatch DeleteView_dispatch,
       PostUpdateView.dispatch UpdateView_dispatch request (Post.id p) s
       = (Return (HttpResponseRedirect (blog_post_detail (Post.id p))), s)
       ∧ PostDeleteView.dispatch DeleteView_dispatch request (Post.id p) s
         = (Return (HttpResponseRedirect (blog_post_detail (Post.id p))), s))
  ∧ (∀ c, c ∈ comments s → Comment.author c ≠ User.id u →
       edit_comment now request (Comment.post c, Comment.id c) s
       = (Return (HttpResponseRedirect (blog_post_detail (Comment.post c))), s)
       ∧ delete_comment request (Comment.post c, Comment.id c) s
         = (Return (HttpResponseRedirect (blog_post_detail (Comment.post c))), s)).
Proof.
  intros Hwf Hu.
  assert (is_authenticated (user request) = true) as Hauth by by rewrite Hu.
  split.
  - intros p Hp Hother Upd Del.
    unfold PostUpdateView.dispatch, PostDeleteView.dispatch,
      LoginRequiredMixin_dispatch.
    rewrite Hauth, !DispatchPostMixin_other; try done;
      rewrite Hu; by apply author_eq_other.
  - intros c Hc Hother.
    assert (author_eq (Comment.author c) (user request) = false) as Hne
      by (rewrite Hu; by apply author_eq_other).
    destruct (edit_comment_found s now request Hwf Hauth c Hc)
      as (r1 & s1 & -> & Hr1).
    destruct (delete_comment_found s request Hwf Hauth c Hc)
      as (r2 & s2 & -> & Hr2).
    destruct (Hr1 Hne) as [-> ->]. by destruct (Hr2 Hne) as [-> ->].
Qed.

Lemma non_author_is_redirected_witness :
  wf_store demo
  ∧ PostDeleteView.dispatch (λ _ _ s, (Raise PermissionDenied, s))
      (demo_request (AuthUser bob) POST []) 1 demo
    = (Return (HttpResponseRedirect (blog_post_detail 1)), demo)
  ∧ @edit_comment demo_forms 600
      (demo_request (AuthUser bob) POST [("text", "mine now")]) (1, 2) demo
    = (Return (HttpResponseRedirect (blog_post_detail 1)), demo).
Proof.
  split; [exact demo_wf|].
  pose proof (@non_author_is_redirected demo_forms demo 600
                (demo_request (AuthUser bob) POST []) bob demo_wf eq_refl)
    as [Hposts _].
  pose proof (@non_author_is_redirected demo_forms demo 600
                (demo_request (AuthUser bob) POST [("text", "mine now")]) bob
                demo_wf eq_refl)
    as [_ Hcomments].
  split.
  - apply (Hposts (Post.mk 1 "Hello" "first post" 100 1 None (Some 1) "" true 90)
             ltac:(apply (bool_decide_unpack _); by vm_compute)
             ltac:(discriminate)
             (λ _ _ s, (Raise PermissionDenied, s))
             (λ _ _ s, (Raise PermissionDenied, s))).
  - apply (Hcomments (Comment.mk 2 "thanks" 1 120 1)
             ltac:(apply (bool_decide_unpack _); by vm_compute)
             ltac:(discriminate)).
Defined.

(** ** Creating comments and posts *)

Section create_views.
Context `{FormValidation}.
Variables (s : Store) (now : Z) (request : Request).

(** Saving an object that has no key yet appends one row. *)
Lemma Comment_save_insert (i : CommentInstance.t) (p a : nat) :
  CommentInstance.pk i = None →
  CommentInstance.post i = Some p → CommentInstance.author i = Some a →
  ∃ row,
    Comment_save now i s = (Return row, set_comments s (comments s ++ [row]))
    ∧ Comment.author row = a ∧ Comment.post row = p
    ∧ Comment.text row = CommentInstance.text i
    ∧ Comment.id row ∉ Comment.id <$> comments s.
Proof.
  intros Hpk Hp Ha. unfold Comment_save. rewrite Hpk, Hp, Ha. simpl.
  eexists. split; [by rewrite save_row_insert by apply fresh_pk_fresh|].
  split_and!; try done. apply fresh_pk_fresh.
Qed.

Lemma Post_save_insert (i : PostInstance.t) (d : Z) (a : nat) :
  PostInstance.pk i = None →
  PostInstance.pub_date i = Some d → PostInstance.author i = Some a →
  ∃ row,
    Post_save now i s = (Return row, set_posts s (posts s ++ [row]))
    ∧ Post.author row = a
    ∧ Post.id row ∉ Post.id <$> posts s.
Proof.
  intros Hpk Hd Ha. unfold Post_save. rewrite Hpk, Hd, Ha. simpl.
  eexists. split; [by rewrite save_row_insert by apply fresh_pk_fresh|].
  split_and!; try done. apply fresh_pk_fresh.
Qed.

Lemma CommentForm_construct_blank_pk (cd : CommentForm.cleaned_data) :
  CommentInstance.pk (CommentForm.construct cd CommentInstance.blank) = None.
Proof.
  rewrite CommentForm_construct_text. by destruct (cd CommentField.text).
Qed.

Lemma add_comment_cases (post_id : nat) :
  ∃ r s', add_comment now request post_id s = (r, s')
          ∧ (s' = s ∨ comment_created s request post_id r s').
Proof.
  unfold add_comment, login_required.
  destruct (user request) as [|u] eqn:Hu; simpl; [by view_stays|].
  unfold vbind at 1. unfold vlift.
  destruct (get_object_or_404 _ (posts s)) as [post|e] eqn:Hpost;
    [|by view_stays].
  apply get_object_or_404_Return in Hpost as [_ Hid].
  destruct (CommentForm_full_clean (POST_data request)) as [errors|cd] eqn:Hcd;
    [by view_stays|].
  edestruct (Comment_save_insert) as (row & Hsave & Ha & Hp & _ & Hfresh);
    [| | |unfold vbind; rewrite Hsave]; [|done..|].
  { apply CommentForm_construct_blank_pk. }
  do 2 eexists. split; [done|]. right.
  exists u, row, cd. rewrite <- Hid, Hcd. by split_and!.
Qed.

Lemma CommentCreateView_cases (post_id : nat) :
  ∃ r s', CommentCreateView.dispatch now request post_id s = (r, s')
          ∧ (s' = s ∨ comment_created s request post_id r s').
Proof.
  unfold CommentCreateView.dispatch, LoginRequiredMixin_dispatch.
  unfold vbind at 1. unfold vlift.
  destruct (get_object_or_404 _ (posts s)) as [post|e] eqn:Hpost;
    [|by view_stays].
  apply get_object_or_404_Return in Hpost as [_ Hid].
  destruct (user request) as [|u] eqn:Hu; simpl; [by view_stays|].
  destruct (method request); [by view_stays|].
  destruct (CommentForm_full_clean (POST_data request)) as [errors|cd] eqn:Hcd;
    [by view_stays|].
  unfold CommentCreateView.form_valid. rewrite Hu. simpl.
  edestruct (Comment_save_insert) as (row & Hsave & Ha & Hp & _ & Hfresh);
    [| | |unfold vbind; rewrite Hsave]; [|done..|].
  { apply CommentForm_construct_blank_pk. }
  do 2 eexists. split; [done|]. right.
  exists u, row, cd. rewrite <- Hid. by split_and!.
Qed.

Lemma PostCreateView_cases :
  ∃ r s', PostCreateView.dispatch now request s = (r, s')
          ∧ (s' = s ∨ post_created s request r s').
Proof.
  unfold PostCreateView.dispatch, LoginRequiredMixin_dispatch.
  destruct (user request) as [|u] eqn:Hu; simpl; [by view_stays|].
  destruct (method request); [by view_stays|].
  destruct (PostForm_full_clean s (POST_data request)) as [errors|cd] eqn:Hcd;
    [by view_stays|].
  unfold PostCreateView.form_valid, PostCreateView.get_success_url.
  rewrite Hu.
  destruct (PostForm_construct_keeps cd PostInstance.blank) as (Hpk & _ & _).
  revert Hpk. generalize (PostForm.construct cd PostInstance.blank).
  intros i Hpk. simpl in Hpk.
  destruct (PostInstance.pub_date i) as [d|] eqn:Hd.
  - edestruct (Post_save_insert
                 (PostInstance.setattr PostField.author (User.id u) i))
      as (row & Hsave & Ha & Hfresh); [done..|].
    unfold vbind. rewrite Hsave. simpl.
    do 2 eexists. split; [done|]. right.
    exists u, row, cd. by split_and!.
  - unfold vbind, Post_save. simpl. rewrite Hd. by view_stays.
Qed.
End create_views.

(** C8, as the code has it: when the comment form does not validate, no
    comment is created and the store stays as it was; [CommentCreateView]
    renders the form again with the field errors, whereas [add_comment]
    redirects to the post's detail page. *)
Theorem invalid_comment_form_creates_nothing `{FormValidation} (s : Store)
    (now : Z) (request : Request) (u : User.t) (p : Post.t)
    (errors : ErrorDict) :
  wf_store s → user request = AuthUser u → method request = POST →
  p ∈ posts s →
  CommentForm_full_clean (POST_data request) = inl errors →
  CommentCreateView.dispatch now request (Post.id p) s
  = (Return (TemplateResponse "blog/comment.html"
               (FormContext (Some (POST_data request)) errors None)), s)
  ∧ add_comment now request (Post.id p) s
    = (Return (HttpResponseRedirect (blog_post_detail (Post.id p))), s).
Proof.
  intros Hwf Hu Hm Hp Hclean. split.
  - unfold CommentCreateView.dispatch, LoginRequiredMixin_dispatch, vbind, vlift.
    rewrite get_post_by_pk by done. by rewrite Hu, Hm, Hclean.
  - unfold add_comment, login_required, vbind, vlift.
    rewrite Hu. simpl. rewrite get_post_by_pk by done. by rewrite Hclean.
Qed.

Lemma invalid_comment_form_creates_nothing_witness :
  wf_store demo
  ∧ @CommentCreateView.dispatch demo_forms 600
      (demo_request (AuthUser bob) POST [("text", "")]) 1 demo
    = (Return (TemplateResponse "blog/comment.html"
                 (FormContext (Some [("text", "")])
                    [("text", "This field is required.")] None)), demo)
  ∧ @add_comment demo_forms 600
      (demo_request (AuthUser bob) POST [("text", "")]) 1 demo
    = (Return (HttpResponseRedirect (blog_post_detail 1)), demo).
Proof.
  split; [exact demo_wf|].
  apply (@invalid_comment_form_creates_nothing demo_forms demo 600
           (demo_request (AuthUser bob) POST [("text", "")]) bob
           (Post.mk 1 "Hello" "first post" 100 1 None (Some 1) "" true 90)
           [("text", "This field is required.")]).
  - exact demo_wf.
  - reflexivity.
  - reflexivity.
  - apply (bool_decide_unpack _). by vm_compute.
  - reflexivity.
Defined.

(** C8 as stated fails on [add_comment]: bob, logged in, submits an empty
    comment on the existing post 1; the form does not validate and the view
    answers with a redirect to the post, not with the form and its messages. *)
Lemma add_comment_invalid_form_redirects :
  @CommentForm_full_clean demo_forms [("text", "")]
  = inl [("text", "This field is required.")]
  ∧ @add_comment demo_forms 600
      (demo_request (AuthUser bob) POST [("text", "")]) 1 demo
    = (Return (HttpResponseRedirect (blog_post_detail 1)), demo)
  ∧ ¬ (∃ template_name context,
         fst (@add_comment demo_forms 600
                (demo_request (AuthUser bob) POST [("text", "")]) 1 demo)
         = Return (TemplateResponse template_name context)).
Proof.
  split; [reflexivity|]. split; [reflexivity|].
  intros (t & c & Heq). vm_compute in Heq. discriminate.
Qed.

(** C10: whatever is submitted, a post or comment created through the create
    views is written under the requesting user: each view either leaves the
    table as it was or appends one row whose author is the logged-in
    requester.  The post form has no [author] field, the comment form only
    [text], and filling an object from either form never touches [author]. *)
Theorem created_rows_belong_to_requester `{FormValidation} (s : Store)
    (now : Z) (request : Request) (post_id : nat) :
  (let '(r, s') := PostCreateView.dispatch now request s in
   s' = s
   ∨ ∃ u row, user request = AuthUser u
              ∧ s' = set_posts s (posts s ++ [row])
              ∧ Post.author row = User.id u)
  ∧ (let '(r, s') := CommentCreateView.dispatch now request post_id s in
     s' = s
     ∨ ∃ u row, user request = AuthUser u
                ∧ s' = set_comments s (comments s ++ [row])
                ∧ Comment.author row = User.id u
                ∧ Comment.post row = post_id)
  ∧ (let '(r, s') := add_comment now request post_id s in
     s' = s
     ∨ ∃ u row, user request = AuthUser u
                ∧ s' = set_comments s (comments s ++ [row])
                ∧ Comment.author row = User.id u
                ∧ Comment.post row = post_id)
  ∧ (PostField.author ∉ PostForm.base_fields)
  ∧ CommentForm.base_fields = [CommentField.text]
  ∧ (∀ cd i, PostInstance.author (PostForm.construct cd i)
             = PostInstance.author i)
  ∧ (∀ cd i, CommentInstance.author (CommentForm.construct cd i)
             = CommentInstance.author i).
Proof.
  split_and!.
  - destruct (PostCreateView_cases s now request) as (r & s' & -> & [->|Hnew]);
      [by left|right].
    destruct Hnew as (u & row & cd & Hu & _ & _ & -> & Ha & _). eauto.
  - destruct (CommentCreateView_cases s now request post_id)
      as (r & s' & -> & [->|Hnew]); [by left|right].
    destruct Hnew as (u & row & cd & Hu & _ & _ & -> & Ha & Hp & _).
    eauto 6.
  - destruct (add_comment_cases s now request post_id)
      as (r & s' & -> & [->|Hnew]); [by left|right].
    destruct Hnew as (u & row & cd & Hu & _ & _ & -> & Ha & Hp & _).
    eauto 6.
  - rewrite PostForm_base_fields. intros Hin.
    repeat (apply elem_of_cons in Hin as [Hin|Hin]; [discriminate|]).
    by apply elem_of_nil in Hin.
  - apply CommentForm_base_fields.
  - intros cd i. apply PostForm_construct_keeps.
  - intros cd i. rewrite CommentForm_construct_text.
    by destruct (cd CommentField.text).
Qed.

Lemma created_rows_belong_to_requester_witness :
  (Post.author <$> posts (snd (@PostCreateView.dispatch demo_forms 600
      (demo_request (AuthUser bob) POST
         [("title", "Mine"); ("pub_date", "700"); ("author", "1")]) demo)))
  = [1; 1; 1; 2; 2; 2; 2]
  ∧ (Comment.author <$> comments (snd (@add_comment demo_forms 600
      (demo_request (AuthUser bob) POST [("text", "hi"); ("author", "1")])
      1 demo)))
    = [2; 1; 1; 2]
  ∧ (let '(r, s') := @add_comment demo_forms 600
        (demo_request (AuthUser bob) POST [("text", "hi"); ("author", "1")])
        1 demo in
     s' = demo
     ∨ ∃ u row, AuthUser bob = AuthUser u
                ∧ s' = set_comments demo (comments demo ++ [row])
                ∧ Comment.author row = User.id u
                ∧ Comment.post row = 1).
Proof.
  split; [reflexivity|]. split; [reflexivity|].
  exact (proj1 (proj2 (proj2
           (@created_rows_belong_to_requester demo_forms demo 600
              (demo_request (AuthUser bob) POST
                 [("text", "hi"); ("author", "1")]) 1)))).
Defined.

(** * Further properties of the views, forms and models *)

(** Goes through the rows of a table that is written out. *)
Ltac each_row H :=
  repeat (apply elem_of_cons in H as [->|H]);
  try (by apply elem_of_nil in H).

Lemma demo_fk : fk_ok demo.
Proof.
  split.
  - intros p Hp. each_row Hp; apply (bool_decide_unpack _); by vm_compute.
  - intros p k Hp Hk. each_row Hp; simpl in Hk; try discriminate;
      injection Hk as <-; apply (bool_decide_unpack _); by vm_compute.
  - intros p k Hp Hk. each_row Hp; simpl in Hk; discriminate.
  - intros c Hc. each_row Hc; apply (bool_decide_unpack _); by vm_compute.
  - intros c Hc. each_row Hc; apply (bool_decide_unpack _); by vm_compute.
Qed.

(** X1: for a post that has a category, the detail view returns the post to
    its author whatever the flags are, and to anybody else exactly when the
    category is published, the date is not in the future and the post is
    published; otherwise that viewer gets Not-Found. *)
Theorem detail_view_policy (s : Store) (now : Z) (u : RequestUser)
    (p : Post.t) (c : Category.t) :
  wf_store s → p ∈ posts s → c ∈ categories s →
  Post.category p = Some (Category.id c) →
  (author_eq (Post.author p) u = true →
   PostDetailView.get_object s now u (Post.id p) = Return p)
  ∧ (author_eq (Post.author p) u = false →
     (PostDetailView.get_object s now u (Post.id p) = Return p ↔
      Category.is_published c = true ∧ (Post.pub_date p ≤ now)%Z
      ∧ Post.is_published p = true)
     ∧ (PostDetailView.get_object s now u (Post.id p) = Raise Http404 ↔
        ¬ (Category.is_published c = true ∧ (Post.pub_date p ≤ now)%Z
           ∧ Post.is_published p = true))).
Proof.
  intros Hwf Hp Hc Hcat.
  rewrite (detail_view_with_category s now u p c) by done.
  split; intros ->; [done|].
  destruct (Category.is_published c), (Post.is_published p),
    (bool_decide_reflect (Post.pub_date p ≤ now)%Z); simpl;
    (split; split; intros H1; try done;
     try (destruct H1 as (? & ? & ?); done);
     try (exfalso; apply H1; done);
     try (intros (? & ? & ?); done)).
Qed.

Lemma detail_view_policy_witness :
  PostDetailView.get_object demo demo_now (AuthUser bob) 3 = Raise Http404
  ∧ PostDetailView.get_object demo demo_now (AuthUser bob) 1
    = Return (Post.mk 1 "Hello" "first post" 100 1 None (Some 1) "" true 90).
Proof.
  split.
  - apply (detail_view_policy demo demo_now (AuthUser bob)
             (Post.mk 3 "Later" "scheduled" 900 1 None (Some 1) "" true 95)
             travel demo_wf);
      [apply (bool_decide_unpack _); by vm_compute..|reflexivity|reflexivity|].
    intros (_ & Hdate & _). simpl in Hdate. unfold demo_now in Hdate. lia.
  - apply (detail_view_policy demo demo_now (AuthUser bob)
             (Post.mk 1 "Hello" "first post" 100 1 None (Some 1) "" true 90)
             travel demo_wf);
      [apply (bool_decide_unpack _); by vm_compute..|reflexivity|reflexivity|].
    simpl. unfold demo_now. split_and!; [done|lia|done].
Defined.

(** X2: the author of a post always gets its detail page, with the post and
    its comments: unpublished, dated in the future, in a hidden category or
    without a category at all. *)
Theorem detail_view_author_sees_own_post (s : Store) (now : Z)
    (request : Request) (u : User.t) (p : Post.t) :
  wf_store s → p ∈ posts s → user request = AuthUser u →
  Post.author p = User.id u →
  PostDetailView.get_object s now (user request) (Post.id p) = Return p
  ∧ PostDetailView.get s now request (Post.id p)
    = Return (TemplateResponse "blog/detail.html"
                (DetailContext p
                   (PostDetailView.get_context_data s (Post.id p)))).
Proof.
  intros Hwf Hp Hu Ha. unfold PostDetailView.get.
  rewrite Hu, detail_view_author by done. done.
Qed.

Lemma detail_view_author_sees_own_post_witness :
  PostDetailView.get_object demo demo_now (AuthUser bob) 5
  = Return (Post.mk 5 "Orphan" "category deleted" 300 2 None None "" true 290).
Proof.
  apply (detail_view_author_sees_own_post demo demo_now
           (demo_request (AuthUser bob) GET []) bob
           (Post.mk 5 "Orphan" "category deleted" 300 2 None None "" true 290)
           demo_wf); [|reflexivity..].
  apply (bool_decide_unpack _). by vm_compute.
Defined.

(** A key is either absent from the table or names one row. *)
Lemma post_pk_cases (s : Store) (pk : nat) :
  (∃ p, p ∈ posts s ∧ Post.id p = pk)
  ∨ (∀ p, p ∈ posts s → Post.id p ≠ pk).
Proof.
  destruct (decide (Exists (λ p, Post.id p = pk) (posts s))) as [Hex|Hno].
  - left. by apply Exists_exists in Hex.
  - right. intros p Hp Hid. apply Hno, Exists_exists. eauto.
Qed.

Lemma elem_of_fmap_key {A} (key : A → nat) (rows : list A) (k : nat) :
  k ∈ key <$> rows → ∃ r, r ∈ rows ∧ key r = k.
Proof. intros (r & -> & Hr)%list_elem_of_fmap. eauto. Qed.

(** X3: on a consistent database the detail view raises nothing but
    [Http404], except [AttributeError] for somebody else's post without a
    category; an unknown key is [Http404] for everybody.  In particular it
    never answers Forbidden. *)
Theorem detail_view_raises_only (s : Store) (now : Z) (u : RequestUser)
    (pk : nat) :
  wf_store s → fk_ok s →
  ((∀ p, p ∈ posts s → Post.id p ≠ pk) →
   PostDetailView.get_object s now u pk = Raise Http404)
  ∧ (∀ e, PostDetailView.get_object s now u pk = Raise e →
          e = Http404
          ∨ (e = AttributeError
             ∧ ∃ p, p ∈ posts s ∧ Post.id p = pk ∧ Post.category p = None
                    ∧ author_eq (Post.author p) u = false)).
Proof.
  intros Hwf Hfk. split.
  - intros Hno. unfold PostDetailView.get_object.
    by rewrite get_object_or_404_missing.
  - intros e He. destruct (post_pk_cases s pk) as [(p & Hp & <-)|Hno].
    + destruct (author_eq (Post.author p) u) eqn:Hu.
      { rewrite get_object_found in He by done. by rewrite Hu in He. }
      destruct (Post.category p) as [cid|] eqn:Hcat.
      * destruct (elem_of_fmap_key Category.id (categories s) cid)
          as (c & Hc & <-); [by eapply fk_post_category|].
        rewrite (detail_view_with_category s now u p c), Hu in He by done.
        destruct (_ && _); [discriminate|]. left. congruence.
      * right. rewrite get_object_found in He by done.
        rewrite Hu in He. unfold Post_category in He. rewrite Hcat in He.
        simpl in He. split; [congruence|]. eauto 6.
    + unfold PostDetailView.get_object in He.
      rewrite get_object_or_404_missing in He by done. simpl in He.
      left. congruence.
Qed.

Lemma detail_view_raises_only_witness :
  PostDetailView.get_object demo demo_now AnonymousUser 42 = Raise Http404
  ∧ PostDetailView.get_object demo demo_now AnonymousUser 5
    ≠ Raise PermissionDenied.
Proof.
  split.
  - apply (proj1 (detail_view_raises_only demo demo_now AnonymousUser 42
                    demo_wf demo_fk)).
    intros p Hp.
    repeat (apply elem_of_cons in Hp as [->|Hp]; [discriminate|]).
    by apply elem_of_nil in Hp.
  - intros He.
    destruct (proj2 (detail_view_raises_only demo demo_now AnonymousUser 5
                       demo_wf demo_fk) _ He) as [|[]]; discriminate.
Defined.

(** ** How the feeds relate *)

Lemma global_feed_elem (s : Store) (now : Z) (p : Post.t) :
  p ∈ obj <$> PostListView.get_queryset s now ↔
  p ∈ posts s ∧ Post.is_published p = true ∧ category__is_published s p
  ∧ (Post.pub_date p ≤ now)%Z.
Proof.
  unfold PostListView.get_queryset.
  rewrite feed_rows, list_elem_of_filter. tauto.
Qed.

Lemma category_feed_elem (s : Store) (now : Z) (c : Category.t) :
  wf_store s → c ∈ categories s → Category.is_published c = true →
  ∃ feed,
    CategoryPostListView.get_queryset s now (Category.slug c) = Return feed
    ∧ ∀ p, p ∈ obj <$> feed ↔
           p ∈ posts s ∧ Post.is_published p = true
           ∧ Post.category p = Some (Category.id c)
           ∧ (Post.pub_date p ≤ now)%Z.
Proof.
  intros Hwf Hc Hpub. unfold CategoryPostListView.get_queryset.
  rewrite (get_object_or_404_unique _ Category.slug (categories s) c);
    [|apply Hwf|done..|by intros y _ [? _]].
  simpl. eexists. split; [done|]. intros p.
  rewrite feed_rows, list_elem_of_filter. tauto.
Qed.

(** X4: the feed of a published category is the global feed cut down to
    that category: same posts, no more and no fewer. *)
Theorem category_feed_is_global_feed_slice (s : Store) (now : Z)
    (c : Category.t) :
  wf_store s → c ∈ categories s → Category.is_published c = true →
  ∃ feed,
    CategoryPostListView.get_queryset s now (Category.slug c) = Return feed
    ∧ ∀ p, p ∈ obj <$> feed ↔
           p ∈ obj <$> PostListView.get_queryset s now
           ∧ Post.category p = Some (Category.id c).
Proof.
  intros Hwf Hc Hpub.
  destruct (category_feed_elem s now c) as (feed & Hfeed & Hmem); [done..|].
  exists feed. split; [done|]. intros p.
  rewrite Hmem, global_feed_elem. unfold category__is_published. split.
  - intros (Hp & Hflag & Hcat & Hdate). rewrite Hcat.
    split_and!; try done. apply Exists_exists. eauto.
  - tauto.
Qed.

Lemma category_feed_is_global_feed_slice_witness :
  ∃ feed,
    CategoryPostListView.get_queryset demo demo_now "travel" = Return feed
    ∧ ∀ p, p ∈ obj <$> feed ↔
           p ∈ obj <$> PostListView.get_queryset demo demo_now
           ∧ Post.category p = Some 1.
Proof.
  apply (category_feed_is_global_feed_slice demo demo_now travel demo_wf);
    [|reflexivity].
  apply (bool_decide_unpack _). by vm_compute.
Defined.

(** X5: a post without a category is in no public feed, whatever its flag
    and date, yet it is listed on its author's profile page. *)
Theorem null_category_post_only_on_profile (s : Store) (now : Z) (p : Post.t) :
  wf_store s → p ∈ posts s → Post.category p = None →
  (p ∉ obj <$> PostListView.get_queryset s now)
  ∧ (∀ category_slug feed,
       CategoryPostListView.get_queryset s now category_slug = Return feed →
       p ∉ obj <$> feed)
  ∧ (∀ u, u ∈ users s → Post.author p = User.id u →
          p ∈ obj <$> ProfileListView.get_queryset s (User.username u)).
Proof.
  intros Hwf Hp Hcat. split_and!.
  - rewrite global_feed_elem. unfold category__is_published.
    rewrite Hcat. tauto.
  - intros category_slug feed. unfold CategoryPostListView.get_queryset.
    destruct (get_object_or_404 _ (categories s)) as [c|]; [|discriminate].
    simpl. intros [= <-]. rewrite feed_rows, list_elem_of_filter.
    rewrite Hcat. by intros ((_ & [=] & _) & _).
  - intros u Hu Ha. unfold ProfileListView.get_queryset.
    rewrite feed_rows, list_elem_of_filter. split; [|done].
    by apply author__username_iff.
Qed.

Lemma null_category_post_only_on_profile_witness :
  (Post.mk 5 "Orphan" "category deleted" 300 2 None None "" true 290
     ∉ obj <$> PostListView.get_queryset demo demo_now)
  ∧ Post.mk 5 "Orphan" "category deleted" 300 2 None None "" true 290
    ∈ obj <$> ProfileListView.get_queryset demo "bob".
Proof.
  destruct (null_category_post_only_on_profile demo demo_now
              (Post.mk 5 "Orphan" "category deleted" 300 2 None None "" true 290)
              demo_wf) as (Hglobal & _ & Hprofile);
    [apply (bool_decide_unpack _); by vm_compute|reflexivity|].
  split; [done|]. apply (Hprofile bob); [|reflexivity].
  apply (bool_decide_unpack _). by vm_compute.
Defined.

(** ** Who gets past the login check *)

(** X6: an anonymous request to any of the login-protected views is sent to
    the login page, with the requested path to come back to, and writes
    nothing. *)
Theorem anonymous_is_sent_to_login `{FormValidation} `{ProfileFormValidation}
    (s : Store) (now : Z) (request : Request) :
  user request = AnonymousUser →
  (∀ post_id,
     add_comment now request post_id s
     = (Return (HttpResponseRedirect (login_url (path request))), s))
  ∧ (∀ ids,
       edit_comment now request ids s
       = (Return (HttpResponseRedirect (login_url (path request))), s)
       ∧ delete_comment request ids s
         = (Return (HttpResponseRedirect (login_url (path request))), s))
  ∧ PostCreateView.dispatch now request s
    = (Return (HttpResponseRedirect (login_url (path request))), s)
  ∧ (∀ super_dispatch pk,
       PostUpdateView.dispatch super_dispatch request pk s
       = (Return (HttpResponseRedirect (login_url (path request))), s)
       ∧ PostDeleteView.dispatch super_dispatch request pk s
         = (Return (HttpResponseRedirect (login_url (path request))), s))
  ∧ EditProfileUpdateView_dispatch request s
    = (Return (HttpResponseRedirect (login_url (path request))), s).
Proof.
  intros Hu.
  unfold add_comment, edit_comment, delete_comment, PostCreateView.dispatch,
    PostUpdateView.dispatch, PostDeleteView.dispatch,
    EditProfileUpdateView_dispatch, login_required,
    LoginRequiredMixin_dispatch.
  rewrite Hu. simpl. by split_and!.
Qed.

Lemma anonymous_is_sent_to_login_witness :
  @add_comment demo_forms 600
    (demo_request AnonymousUser POST [("text", "hi")]) 1 demo
  = (Return (HttpResponseRedirect (login_url "/")), demo).
Proof.
  exact (proj1 (@anonymous_is_sent_to_login demo_forms demo_profile_forms
                  demo 600 (demo_request AnonymousUser POST [("text", "hi")])
                  eq_refl) 1).
Defined.

(** X7: commenting on a post that does not exist.  [CommentCreateView] looks
    the post up before the login check, so it is Not-Found for everybody;
    [add_comment] checks the login first, so only a logged-in user gets
    Not-Found and an anonymous one is sent to the login page.  Neither
    writes. *)
Theorem comment_on_missing_post `{FormValidation} (s : Store) (now : Z)
    (request : Request) (post_id : nat) :
  (∀ p, p ∈ posts s → Post.id p ≠ post_id) →
  CommentCreateView.dispatch now request post_id s = (Raise Http404, s)
  ∧ add_comment now request post_id s
    = if is_authenticated (user request)
      then (Raise Http404, s)
      else (Return (HttpResponseRedirect (login_url (path request))), s).
Proof.
  intros Hno. split.
  - unfold CommentCreateView.dispatch, vbind, vlift.
    by rewrite get_object_or_404_missing.
  - unfold add_comment, login_required.
    destruct (is_authenticated (user request)); [|done].
    unfold vbind, vlift. by rewrite get_object_or_404_missing.
Qed.

Lemma comment_on_missing_post_witness :
  @CommentCreateView.dispatch demo_forms 600
    (demo_request AnonymousUser POST [("text", "hi")]) 42 demo
  = (Raise Http404, demo)
  ∧ @add_comment demo_forms 600
      (demo_request AnonymousUser POST [("text", "hi")]) 42 demo
    = (Return (HttpResponseRedirect (login_url "/")), demo).
Proof.
  apply (@comment_on_missing_post demo_forms demo 600
           (demo_request AnonymousUser POST [("text", "hi")]) 42).
  intros p Hp. each_row Hp; discriminate.
Defined.

(** ** Writes keep the keys unique *)

Lemma unique_by_filter {A B} (key : A → B) (P : A → Prop)
    `{∀ x, Decision (P x)} (rows : list A) :
  unique_by key rows → unique_by key (filter P rows).
Proof.
  unfold unique_by. induction rows as [|a rows IH]; [done|].
  rewrite fmap_cons, NoDup_cons. intros [Hfresh Hnd].
  rewrite filter_cons. case_decide; [|by apply IH].
  rewrite fmap_cons. apply NoDup_cons. split; [|by apply IH].
  intros (r & Hk & Hr)%list_elem_of_fmap. apply Hfresh.
  apply list_elem_of_filter in Hr as [_ Hr].
  rewrite Hk. by apply list_elem_of_fmap_2.
Qed.

Lemma unique_by_snoc {A B} (key : A → B) (rows : list A) (row : A) :
  unique_by key rows → key row ∉ key <$> rows →
  unique_by key (rows ++ [row]).
Proof.
  unfold unique_by. intros Hnd Hfresh. rewrite fmap_app. simpl.
  apply NoDup_app. split_and!; [done| |apply NoDup_singleton].
  intros k Hk ->%list_elem_of_singleton. done.
Qed.

(** Replacing rows by rows with the same key changes no key. *)
Lemma fmap_same_key {A B} (key : A → B) (f : A → A) (rows : list A) :
  (∀ r, key (f r) = key r) → key <$> (f <$> rows) = key <$> rows.
Proof.
  intros Hf. induction rows as [|a rows IH]; [done|].
  rewrite !fmap_cons. by rewrite Hf, IH.
Qed.

Lemma save_row_update {A} (pk : A → nat) (row : A) (rows : list A) :
  pk row ∈ pk <$> rows →
  save_row pk row rows = (λ r, if decide (pk r = pk row) then row else r) <$> rows.
Proof.
  intros (r & Hk & Hr)%list_elem_of_fmap. unfold save_row.
  rewrite decide_True; [done|]. apply Exists_exists. eauto.
Qed.

Lemma save_row_update_keys {A} (pk : A → nat) (row : A) (rows : list A) :
  pk <$> ((λ r, if decide (pk r = pk row) then row else r) <$> rows)
  = pk <$> rows.
Proof. apply fmap_same_key. intros r. by case_decide. Qed.

(** ** Deleting and editing a comment as its author *)

(** X8: the author of a comment who posts to the delete view removes that
    comment and nothing else, and is sent back to the post; asking again is
    Not-Found.  A GET only shows the confirmation page. *)
Theorem delete_comment_by_author (s : Store) (request : Request) (u : User.t)
    (c : Comment.t) :
  wf_store s → user request = AuthUser u → c ∈ comments s →
  Comment.author c = User.id u →
  (method request = GET →
   delete_comment request (Comment.post c, Comment.id c) s
   = (Return (TemplateResponse "blog/comment.html" (DeleteContext c)), s))
  ∧ (method request = POST →
     ∃ s',
       delete_comment request (Comment.post c, Comment.id c) s
       = (Return (HttpResponseRedirect (blog_post_detail (Comment.post c))), s')
       ∧ (∀ r, r ∈ comments s' ↔ r ∈ comments s ∧ r ≠ c)
       ∧ posts s' = posts s ∧ users s' = users s
       ∧ categories s' = categories s
       ∧ wf_store s'
       ∧ delete_comment request (Comment.post c, Comment.id c) s'
         = (Raise Http404, s')).
Proof.
  intros Hwf Hu Hc Ha.
  assert (delete_comment request (Comment.post c, Comment.id c) s
          = match method request with
            | POST => (Return (HttpResponseRedirect
                                 (blog_post_detail (Comment.post c))),
                       set_comments s
                         (filter (λ r, Comment.id r ≠ Comment.id c) (comments s)))
            | GET => (Return (TemplateResponse "blog/comment.html"
                                (DeleteContext c)), s)
            end) as Heq.
  { unfold delete_comment, login_required, vbind, vlift. rewrite Hu. simpl.
    rewrite get_comment_under_post by done. simpl.
    rewrite Ha, bool_decide_true by done. simpl.
    by destruct (method request). }
  rewrite Heq. split; intros ->; [done|].
  eexists. split; [done|].
  assert (∀ r, r ∈ filter (λ r, Comment.id r ≠ Comment.id c) (comments s) ↔
               r ∈ comments s ∧ r ≠ c) as Hmem.
  { intros r. rewrite list_elem_of_filter. split.
    - intros [Hid Hr]. split; [done|]. congruence.
    - intros [Hr Hne]. split; [|done]. intros Hid. apply Hne.
      by apply (unique_by_eq Comment.id (comments s)); [apply Hwf|..]. }
  split_and!; try done.
  - destruct Hwf. split; simpl; try done. by apply unique_by_filter.
  - unfold delete_comment, login_required, vbind, vlift. rewrite Hu. simpl.
    rewrite get_object_or_404_missing; [done|].
    intros r Hr [Hid _]. by apply list_elem_of_filter in Hr as [? _].
Qed.

Lemma delete_comment_by_author_witness :
  ∃ s',
    delete_comment (demo_request (AuthUser bob) POST []) (1, 1) demo
    = (Return (HttpResponseRedirect (blog_post_detail 1)), s')
    ∧ Comment.id <$> comments s' = [2; 3].
Proof.
  destruct (delete_comment_by_author demo (demo_request (AuthUser bob) POST [])
              bob (Comment.mk 1 "nice" 1 150 2) demo_wf eq_refl)
    as [_ Hpost]; [apply (bool_decide_unpack _); by vm_compute|reflexivity|].
  destruct (Hpost eq_refl) as (s' & Heq & _).
  exists s'. split; [exact Heq|].
  vm_compute in Heq. by injection Heq as <-.
Defined.

(** X9: the author of a comment who submits a valid form changes the text of
    that comment and nothing else: key, post, author and creation time stay,
    every other comment stays, and the keys remain unique.  With nothing
    submitted, or with a form that does not validate, the page with the form
    is shown and nothing is written. *)
Theorem edit_comment_by_author `{FormValidation} (s : Store) (now : Z)
    (request : Request) (u : User.t) (c : Comment.t) :
  wf_store s → user request = AuthUser u → c ∈ comments s →
  Comment.author c = User.id u →
  (POST_data request = [] →
   edit_comment now request (Comment.post c, Comment.id c) s
   = (Return (TemplateResponse "blog/comment.html"
                (FormContext None [] (Some c))), s))
  ∧ (∀ errors,
       POST_data request ≠ [] →
       CommentForm_full_clean (POST_data request) = inl errors →
       edit_comment now request (Comment.post c, Comment.id c) s
       = (Return (TemplateResponse "blog/comment.html"
                    (FormContext (Some (POST_data request)) errors (Some c))),
          s))
  ∧ (∀ cd,
       POST_data request ≠ [] →
       CommentForm_full_clean (POST_data request) = inr cd →
       let c' := Comment.mk (Comment.id c)
                            (default (Comment.text c) (cd CommentField.text))
                            (Comment.post c) (Comment.created_at c)
                            (Comment.author c) in
       ∃ s',
         edit_comment now request (Comment.post c, Comment.id c) s
         = (Return (HttpResponseRedirect (blog_post_detail (Comment.post c))),
            s')
         ∧ comments s'
           = (λ r, if decide (Comment.id r = Comment.id c) then c' else r)
               <$> comments s
         ∧ c' ∈ comments s'
         ∧ (∀ r, r ∈ comments s → r ≠ c → r ∈ comments s')
         ∧ posts s' = posts s
         ∧ wf_store s').
Proof.
  intros Hwf Hu Hc Ha.
  assert (∀ k, edit_comment now request (Comment.post c, Comment.id c) s
               = (if negb (author_eq (Comment.author c) (user request))
                  then k else
                  match POST_data request with
                  | [] => render "blog/comment.html"
                            (FormContext None [] (Some c))
                  | data =>
                      match CommentForm_full_clean data with
                      | inr cleaned =>
                          _ <~ Comment_save now
                                 (CommentForm.construct cleaned
                                    (CommentInstance.of_row c)) ;;
                          redirect (blog_post_detail (Comment.post c))
                      | inl errors =>
                          render "blog/comment.html"
                            (FormContext (Some data) errors (Some c))
                      end
                  end s)) as Heq.
  { intros k. unfold edit_comment, login_required, vbind at 1, vlift.
    rewrite Hu. simpl. rewrite get_comment_under_post by done.
    by rewrite Ha, bool_decide_true. }
  rewrite (Heq (Raise Http404, s)), Hu. simpl.
  rewrite bool_decide_true by done. simpl. clear Heq.
  split_and!.
  - by intros ->.
  - intros errors Hdata Hclean.
    destruct (POST_data request) as [|kv q]; [done|]. by rewrite Hclean.
  - intros cd Hdata Hclean.
    set (c' := Comment.mk (Comment.id c)
                 (default (Comment.text c) (cd CommentField.text))
                 (Comment.post c) (Comment.created_at c) (Comment.author c)).
    destruct (POST_data request) as [|kv q]; [done|]. rewrite Hclean.
    rewrite CommentForm_construct_text.
    assert (Comment.id c' ∈ Comment.id <$> comments s) as Hin
      by (change (Comment.id c ∈ Comment.id <$> comments s);
          by apply list_elem_of_fmap_2).
    assert (Comment_save now
              match cd CommentField.text with
              | Some v => CommentInstance.setattr CommentField.text v
                            (CommentInstance.of_row c)
              | None => CommentInstance.of_row c
              end s
            = (Return c', set_comments s (save_row Comment.id c' (comments s))))
      as Hsave.
    { subst c'. destruct c as [k t p ca a].
      by destruct (cd CommentField.text). }
    unfold vbind. rewrite Hsave. rewrite save_row_update by done.
    eexists. split; [done|]. simpl. split_and!; try done.
    + apply list_elem_of_fmap. exists c. by rewrite decide_True.
    + intros r Hr Hne. apply list_elem_of_fmap. exists r. split; [|done].
      rewrite decide_False; [done|]. intros Hid. apply Hne.
      by apply (unique_by_eq Comment.id (comments s)); [apply Hwf|..].
    + destruct Hwf. split; simpl; try done.
      unfold unique_by. by rewrite (save_row_update_keys Comment.id c').
Qed.

Lemma edit_comment_by_author_witness :
  ∃ s',
    @edit_comment demo_forms 600
      (demo_request (AuthUser bob) POST [("text", "nicer"); ("author", "1")])
      (1, 1) demo
    = (Return (HttpResponseRedirect (blog_post_detail 1)), s')
    ∧ comments s'
      = [ Comment.mk 1 "nicer" 1 150 2; Comment.mk 2 "thanks" 1 120 1;
          Comment.mk 3 "where?" 6 450 1 ].
Proof.
  destruct (@edit_comment_by_author demo_forms demo 600
              (demo_request (AuthUser bob) POST
                 [("text", "nicer"); ("author", "1")])
              bob (Comment.mk 1 "nice" 1 150 2) demo_wf eq_refl)
    as (_ & _ & Hvalid);
    [apply (bool_decide_unpack _); by vm_compute|reflexivity|].
  destruct (Hvalid (λ f, match f as f0 return option (CommentField.type f0) with
                         | CommentField.text => Some "nicer"
                         | CommentField.author => Some 1
                         | _ => None
                         end))
    as (s' & Heq & Hrows & _); [discriminate|reflexivity|].
  exists s'. split; [exact Heq|]. rewrite Hrows. reflexivity.
Defined.

(** ** Creating, then reading back *)

(** X10: a valid comment submitted by a logged-in user on an existing post
    becomes one new row with the cleaned text, the time of the request, the
    requester and that post; it is then in the comment list of the post's
    detail page, the post's comment count is one higher and every other
    count is as before. *)
Theorem add_comment_then_listed `{FormValidation} (s : Store) (now : Z)
    (request : Request) (u : User.t) (p : Post.t)
    (cd : CommentForm.cleaned_data) :
  wf_store s → user request = AuthUser u → p ∈ posts s →
  CommentForm_full_clean (POST_data request) = inr cd →
  let row := Comment.mk (fresh_pk (Comment.id <$> comments s))
                        (default "" (cd CommentField.text))
                        (Post.id p) now (User.id u) in
  let s' := set_comments s (comments s ++ [row]) in
  add_comment now request (Post.id p) s
  = (Return (HttpResponseRedirect (blog_post_detail (Post.id p))), s')
  ∧ (method request = POST →
     CommentCreateView.dispatch now request (Post.id p) s
     = (Return (HttpResponseRedirect (blog_post_detail (Post.id p))), s'))
  ∧ row ∈ PostDetailView.get_context_data s' (Post.id p)
  ∧ (∀ q, Count_comments s' q
          = Count_comments s q + (if decide (Post.id q = Post.id p) then 1 else 0))
  ∧ wf_store s'.
Proof.
  intros Hwf Hu Hp Hclean row s'.
  assert (Comment_save now
            (CommentInstance.setattr CommentField.post (Post.id p)
               (CommentInstance.setattr CommentField.author (User.id u)
                  (CommentForm.construct cd CommentInstance.blank))) s
          = (Return row, s')) as Hsave.
  { rewrite CommentForm_construct_text. unfold Comment_save.
    destruct (cd CommentField.text); simpl;
      by rewrite save_row_insert by apply fresh_pk_fresh. }
  split_and!.
  - unfold add_comment, login_required. rewrite Hu.
    unfold is_authenticated, vbind at 1, vlift. cbv beta iota.
    rewrite get_post_by_pk by done. rewrite Hclean. cbv beta iota.
    unfold vbind. by rewrite Hsave.
  - intros Hm. unfold CommentCreateView.dispatch, LoginRequiredMixin_dispatch,
      vbind at 1, vlift.
    rewrite get_post_by_pk by done. cbv beta iota.
    rewrite Hu. unfold is_authenticated. cbv beta iota. rewrite Hm, Hclean.
    unfold CommentCreateView.form_valid. rewrite Hu.
    cbv beta iota zeta. unfold vbind. by rewrite Hsave.
  - unfold PostDetailView.get_context_data, order_by_created_at.
    rewrite merge_sort_Permutation, list_elem_of_filter. split; [done|].
    simpl. apply elem_of_app. right. by left.
  - intros q. unfold Count_comments. simpl.
    rewrite filter_app, length_app. f_equal.
    rewrite filter_cons, filter_nil. simpl.
    destruct (decide (Post.id p = Post.id q)), (decide (Post.id q = Post.id p));
      done || congruence.
  - destruct Hwf. split; simpl; try done.
    apply unique_by_snoc; [done|]. apply fresh_pk_fresh.
Qed.

Lemma add_comment_then_listed_witness :
  @add_comment demo_forms 600
    (demo_request (AuthUser bob) POST [("text", "hi")]) 6 demo
  = (Return (HttpResponseRedirect (blog_post_detail 6)),
     set_comments demo (comments demo ++ [Comment.mk 4 "hi" 6 600 2])).
Proof.
  refine (proj1 (@add_comment_then_listed demo_forms demo 600
                   (demo_request (AuthUser bob) POST [("text", "hi")]) bob
                   (Post.mk 6 "Trip" "second author" 400 2 None (Some 1) ""
                            true 390)
                   (λ f, match f as f0 return option (CommentField.type f0) with
                         | CommentField.text => Some "hi"
                         | _ => None
                         end)
                   demo_wf eq_refl _ eq_refl)).
  apply (bool_decide_unpack _). by vm_compute.
Defined.

(** ** [Comment.__str__] *)






(** ** Pages *)

(** X18: paging loses nothing and invents nothing.  Row [i] of the global
    feed is row [i mod 10] of page [i / 10 + 1]; page 1 always exists; a page
    number of zero or beyond the last page is Not-Found. *)
Theorem feed_row_is_on_its_page (s : Store) (now : Z) :
  let feed := PostListView.get_queryset s now in
  (∀ i a, feed !! i = Some a →
     ∃ page,
       paginate_queryset PostListView.paginate_by feed (i / 10 + 1) = Return page
       ∧ page !! (i mod 10) = Some a)
  ∧ (∃ page, paginate_queryset PostListView.paginate_by feed 1 = Return page)
  ∧ (∀ request,
       page_kwarg request = 0
       ∨ num_pages 10 (length feed) < page_kwarg request →
       PostListView.get s now request = Raise Http404).
Proof.
  intros feed. unfold PostListView.paginate_by, POSTS_ON_PAGE. split_and!.
  - intros i a Hi. assert (i < length feed) as Hlt by by eapply lookup_lt_Some.
    unfold paginate_queryset, num_pages.
    rewrite decide_True.
    + eexists. split; [done|].
      rewrite lookup_take_lt by (apply Nat.mod_upper_bound; lia).
      rewrite lookup_drop, <- Hi. f_equal.
      pose proof (Nat.div_mod_eq i 10). lia.
    + split; [lia|]. case_decide; [lia|].
      assert (i / 10 < (length feed + 10 - 1) / 10); [|lia].
      apply Nat.Div0.div_lt_upper_bound.
      pose proof (Nat.div_mod_eq (length feed + 10 - 1) 10).
      pose proof (Nat.mod_upper_bound (length feed + 10 - 1) 10).
      lia.
  - rewrite paginate_queryset_first by lia. eauto.
  - intros request Hpage. unfold PostListView.get, paginate_queryset.
    unfold PostListView.paginate_by, POSTS_ON_PAGE. fold feed.
    rewrite decide_False; [done|]. lia.
Qed.

Lemma feed_row_is_on_its_page_witness :
  ∃ page,
    paginate_queryset PostListView.paginate_by
      (PostListView.get_queryset demo demo_now) 1 = Return page
    ∧ obj <$> page !! 1
      = Some (Post.mk 1 "Hello" "first post" 100 1 None (Some 1) "" true 90).
Proof.
  destruct (proj1 (feed_row_is_on_its_page demo demo_now) 1
              (mkAnnotated
                 (Post.mk 1 "Hello" "first post" 100 1 None (Some 1) "" true 90)
                 2) eq_refl) as (page & Hpage & Hrow).
  exists page. split; [exact Hpage|]. simpl in Hrow. by rewrite Hrow.
Defined.

(** ** What a form writes onto an object *)

(** A field of the form is written when it is in the cleaned data, and is
    touched by nothing else. *)
Lemma construct_instance_field {F I X} `{EqDecision F} (type : F → Type)
    (setattr : ∀ f, type f → I → I) (meta_fields : list (F * bool))
    (cd : ∀ f, option (type f)) (fields : option (list F)) (exclude : list F)
    (proj : I → X) (f0 : F) (g : type f0 → X) (i : I) :
  NoDup (fst <$> meta_fields) → (f0, true) ∈ meta_fields →
  in_form fields exclude f0 = true →
  (∀ v j, proj (setattr f0 v j) = g v) →
  (∀ f v j, f ≠ f0 → proj (setattr f v j) = proj j) →
  proj (construct_instance type setattr meta_fields cd fields exclude i)
  = match cd f0 with Some v => g v | None => proj i end.
Proof.
  intros Hnd Hin Hform Hset Hother. revert i.
  induction meta_fields as [|[f e] l IH]; intros i.
  { by apply elem_of_nil in Hin. }
  rewrite fmap_cons in Hnd. apply NoDup_cons in Hnd as [Hfresh Hnd].
  simpl in Hfresh.
  apply elem_of_cons in Hin as [Heq|Hin].
  - injection Heq as <- <-.
    change (proj (construct_instance type setattr l cd fields exclude
                    (if true && in_form fields exclude f0
                     then match cd f0 with
                          | Some v => setattr f0 v i
                          | None => i
                          end
                     else i))
            = match cd f0 with Some v => g v | None => proj i end).
    rewrite Hform. simpl. rewrite construct_instance_keeps.
    + destruct (cd f0); [apply Hset|done].
    + apply Forall_forall. intros [f' e'] Hin' _ v j. apply Hother.
      simpl. intros ->. apply Hfresh.
      by apply (list_elem_of_fmap_2 fst l (f0, e')).
  - assert (f ≠ f0) as Hne.
    { intros ->. apply Hfresh. by apply (list_elem_of_fmap_2 fst l (f0, true)). }
    change (proj (construct_instance type setattr l cd fields exclude
                    (if e && in_form fields exclude f
                     then match cd f with
                          | Some v => setattr f v i
                          | None => i
                          end
                     else i))
            = match cd f0 with Some v => g v | None => proj i end).
    unfold construct_instance in IH |- *. rewrite IH by done.
    destruct (cd f0); [done|].
    destruct (e && in_form fields exclude f); [|done].
    destruct (cd f); [by apply Hother|done].
Qed.

Lemma Post_meta_fields_NoDup : NoDup (fst <$> Post_meta_fields).
Proof. apply (bool_decide_unpack _). by vm_compute. Qed.

Lemma PostForm_construct_pub_date (cd : PostForm.cleaned_data)
    (i : PostInstance.t) :
  PostInstance.pub_date (PostForm.construct cd i)
  = match cd PostField.pub_date with
    | Some d => Some d
    | None => PostInstance.pub_date i
    end.
Proof.
  unfold PostForm.construct.
  apply (construct_instance_field PostField.type PostInstance.setattr
           Post_meta_fields cd PostForm.fields PostForm.exclude
           PostInstance.pub_date PostField.pub_date Some i).
  - apply Post_meta_fields_NoDup.
  - apply (bool_decide_unpack _). by vm_compute.
  - by vm_compute.
  - done.
  - intros f v j Hne. by destruct f.
Qed.

(** X16: a post saved after [PostForm] has written onto it keeps its key,
    its author and its creation time, whatever the cleaned data holds, an
    [author] value included; the row replaces the old one and every other
    post stays as it was. *)
Theorem PostForm_edit_keeps_author (s : Store) (now : Z) (p : Post.t)
    (cd : PostForm.cleaned_data) :
  wf_store s → p ∈ posts s →
  ∃ row,
    Post_save now (PostForm.construct cd (PostInstance_of_row p)) s
    = (Return row,
       set_posts s ((λ r, if decide (Post.id r = Post.id p) then row else r)
                      <$> posts s))
    ∧ Post.id row = Post.id p
    ∧ Post.author row = Post.author p
    ∧ Post.created_at row = Post.created_at p
    ∧ Post.pub_date row = default (Post.pub_date p) (cd PostField.pub_date)
    ∧ (∀ r, r ∈ posts s → r ≠ p →
            r ∈ (λ r, if decide (Post.id r = Post.id p) then row else r)
                  <$> posts s)
    ∧ wf_store
        (set_posts s ((λ r, if decide (Post.id r = Post.id p) then row else r)
                        <$> posts s)).
Proof.
  intros Hwf Hp.
  destruct (PostForm_construct_keeps cd (PostInstance_of_row p))
    as (Hpk & Ha & Hcreated).
  pose proof (PostForm_construct_pub_date cd (PostInstance_of_row p)) as Hd.
  revert Hpk Ha Hcreated Hd.
  generalize (PostForm.construct cd (PostInstance_of_row p)).
  intros i Hpk Ha Hcreated Hd. simpl in *.
  assert (PostInstance.pub_date i
          = Some (default (Post.pub_date p) (cd PostField.pub_date))) as Hd'
    by (rewrite Hd; by destruct (cd PostField.pub_date)).
  unfold Post_save. rewrite Hd', Ha, Hpk, Hcreated. simpl.
  eexists. split.
  { rewrite save_row_update; [done|]. simpl. by apply list_elem_of_fmap_2. }
  simpl. split_and!; try done.
  - intros r Hr Hne. apply list_elem_of_fmap. exists r. split; [|done].
    rewrite decide_False; [done|]. intros Hid. apply Hne.
    by apply (unique_by_eq Post.id (posts s)); [apply Hwf|..].
  - destruct Hwf. split; simpl; try done.
    unfold unique_by. rewrite fmap_same_key; [done|].
    intros r. by case_decide.
Qed.

Lemma PostForm_edit_keeps_author_witness :
  ∃ row,
    fst (Post_save 600
           (PostForm.construct
              (λ f, match f as f0 return option (PostField.type f0) with
                    | PostField.title => Some "Hello again"
                    | PostField.author => Some 2
                    | _ => None
                    end)
              (PostInstance_of_row
                 (Post.mk 1 "Hello" "first post" 100 1 None (Some 1) "" true 90)))
           demo)
    = Return row
    ∧ Post.author row = 1.
Proof.
  destruct (PostForm_edit_keeps_author demo 600
              (Post.mk 1 "Hello" "first post" 100 1 None (Some 1) "" true 90)
              (λ f, match f as f0 return option (PostField.type f0) with
                    | PostField.title => Some "Hello again"
                    | PostField.author => Some 2
                    | _ => None
                    end) demo_wf)
    as (row & Hsave & _ & Ha & _).
  { apply (bool_decide_unpack _). by vm_compute. }
  exists row. rewrite Hsave. by split.
Defined.

(** X11: a valid post form submitted by a logged-in user creates one row
    whose author is the requester, with the submitted publication date and
    the time of the request as creation time, under a fresh key; the redirect
    goes to the requester's profile page, and the new post is listed there
    whatever its flag, date and category. *)
Theorem post_create_then_on_profile `{FormValidation} (s : Store) (now : Z)
    (request : Request) (u : User.t) (cd : PostForm.cleaned_data) (d : Z) :
  wf_store s → u ∈ users s → user request = AuthUser u →
  method request = POST →
  PostForm_full_clean s (POST_data request) = inr cd →
  cd PostField.pub_date = Some d →
  ∃ row,
    PostCreateView.dispatch now request s
    = (Return (HttpResponseRedirect (blog_profile (User.username u))),
       set_posts s (posts s ++ [row]))
    ∧ Post.author row = User.id u
    ∧ Post.pub_date row = d
    ∧ Post.created_at row = now
    ∧ (Post.id row ∉ Post.id <$> posts s)
    ∧ row ∈ obj <$> ProfileListView.get_queryset
                      (set_posts s (posts s ++ [row])) (User.username u)
    ∧ wf_store (set_posts s (posts s ++ [row])).
Proof.
  intros Hwf Huser Hu Hm Hclean Hdate.
  destruct (PostForm_construct_keeps cd PostInstance.blank)
    as (Hpk & _ & Hcreated).
  pose proof (PostForm_construct_pub_date cd PostInstance.blank) as Hd.
  rewrite Hdate in Hd.
  unfold PostCreateView.dispatch, LoginRequiredMixin_dispatch.
  rewrite Hu. unfold is_authenticated. cbv beta iota. rewrite Hm, Hclean.
  unfold PostCreateView.form_valid, PostCreateView.get_success_url.
  rewrite Hu. cbv beta iota zeta.
  revert Hpk Hcreated Hd. generalize (PostForm.construct cd PostInstance.blank).
  intros i Hpk Hcreated Hd. simpl in Hpk, Hcreated.
  unfold vbind, Post_save. simpl. rewrite Hd, Hpk, Hcreated. simpl.
  rewrite save_row_insert by apply fresh_pk_fresh.
  eexists. split; [done|]. simpl.
  assert (wf_store (set_posts s (posts s ++
            [Post.mk (fresh_pk (Post.id <$> posts s)) (PostInstance.title i)
               (PostInstance.text i) d (User.id u) (PostInstance.location i)
               (PostInstance.category i) (PostInstance.image i)
               (PostInstance.is_published i) now]))) as Hwf'.
  { destruct Hwf. split; simpl; try done.
    apply unique_by_snoc; [done|]. apply fresh_pk_fresh. }
  split_and!; try done.
  - apply fresh_pk_fresh.
  - unfold ProfileListView.get_queryset.
    rewrite feed_rows, list_elem_of_filter. split.
    + by apply author__username_iff.
    + simpl. apply elem_of_app. right. by left.
Qed.

Lemma post_create_then_on_profile_witness :
  ∃ row,
    @PostCreateView.dispatch demo_forms 600
      (demo_request (AuthUser bob) POST
         [("title", "Mine"); ("pub_date", "700"); ("author", "1")]) demo
    = (Return (HttpResponseRedirect (blog_profile "bob")),
       set_posts demo (posts demo ++ [row]))
    ∧ Post.author row = 2.
Proof.
  destruct (@post_create_then_on_profile demo_forms demo 600
              (demo_request (AuthUser bob) POST
                 [("title", "Mine"); ("pub_date", "700"); ("author", "1")])
              bob
              (λ f, match f as f0 return option (PostField.type f0) with
                    | PostField.title => Some "Mine"
                    | PostField.text => None
                    | PostField.pub_date => Some 700%Z
                    | PostField.author => Some 1
                    | PostField.category => Some None
                    | _ => None
                    end)
              700%Z demo_wf)
    as (row & Heq & Ha & _); try reflexivity.
  { apply (bool_decide_unpack _). by vm_compute. }
  exists row. by split.
Defined.

(** ** Deleting rows that others point to *)

Lemma Post_null_category_id (cid : nat) (p : Post.t) :
  Post.id (Post_null_category cid p) = Post.id p.
Proof. unfold Post_null_category. by case_decide. Qed.

Lemma Post_null_category_author (cid : nat) (p : Post.t) :
  Post.author (Post_null_category cid p) = Post.author p.
Proof. unfold Post_null_category. by case_decide. Qed.

(** X13: deleting a category deletes no post.  The posts that were in it
    stay, with the same key and author and without a category; from then on
    they are in no public feed and their detail page raises [AttributeError]
    for everybody but the author.  Posts of other categories are untouched,
    the category's own feed is Not-Found, and keys and references stay
    consistent. *)
Theorem Category_delete_orphans_posts (s : Store) (now : Z) (c : Category.t) :
  wf_store s → c ∈ categories s →
  let s' := Category_delete c s in
  Post.id <$> posts s' = Post.id <$> posts s
  ∧ (∀ p, p ∈ posts s → Post.category p = Some (Category.id c) →
       ∃ p', p' ∈ posts s' ∧ Post.id p' = Post.id p
             ∧ Post.author p' = Post.author p ∧ Post.category p' = None
             ∧ (p' ∉ obj <$> PostListView.get_queryset s' now)
             ∧ (∀ u, author_eq (Post.author p) u = false →
                     PostDetailView.get_object s' now u (Post.id p)
                     = Raise AttributeError))
  ∧ (∀ p, p ∈ posts s → Post.category p ≠ Some (Category.id c) → p ∈ posts s')
  ∧ (∀ r, r ∈ categories s' ↔ r ∈ categories s ∧ r ≠ c)
  ∧ CategoryPostListView.get_queryset s' now (Category.slug c) = Raise Http404
  ∧ wf_store s'
  ∧ (fk_ok s → fk_ok s').
Proof.
  intros Hwf Hc s'.
  assert (∀ r, r ∈ categories s' ↔ r ∈ categories s ∧ r ≠ c) as Hcats.
  { intros r. unfold s'. simpl. rewrite list_elem_of_filter. split.
    - intros [Hid Hr]. split; [done|]. congruence.
    - intros [Hr Hne]. split; [|done]. intros Hid. apply Hne.
      by apply (unique_by_eq Category.id (categories s)); [apply Hwf|..]. }
  assert (wf_store s') as Hwf'.
  { destruct Hwf. split; simpl; try done.
    - by apply unique_by_filter.
    - by apply unique_by_filter.
    - unfold unique_by. rewrite fmap_same_key; [done|].
      apply Post_null_category_id. }
  split_and!; try done.
  - simpl. apply fmap_same_key, Post_null_category_id.
  - intros p Hp Hcat.
    set (p' := Post_null_category (Category.id c) p).
    assert (p' ∈ posts s') as Hp' by by apply list_elem_of_fmap_2.
    assert (Post.category p' = None) as Hnull
      by (unfold p', Post_null_category; by rewrite decide_True).
    assert (Post.id p' = Post.id p) as Hid by apply Post_null_category_id.
    assert (Post.author p' = Post.author p) as Hauthor
      by apply Post_null_category_author.
    exists p'. split_and!; try done.
    + rewrite global_feed_elem. unfold category__is_published.
      rewrite Hnull. tauto.
    + intros u Hu. rewrite <- Hid, get_object_found by done.
      rewrite Hauthor, Hu. simpl. unfold Post_category. by rewrite Hnull.
  - intros p Hp Hcat. simpl. apply list_elem_of_fmap. exists p.
    split; [|done]. unfold Post_null_category. by rewrite decide_False.
  - unfold CategoryPostListView.get_queryset.
    rewrite get_object_or_404_missing; [done|].
    intros r Hr [Hslug _]. apply Hcats in Hr as [Hr Hne]. apply Hne.
    by apply (unique_by_eq Category.slug (categories s)); [apply Hwf|..].
  - intros Hfk. split; simpl.
    + intros p' (p & -> & Hp)%list_elem_of_fmap.
      rewrite Post_null_category_author. by apply Hfk.
    + intros p' cid (p & -> & Hp)%list_elem_of_fmap Hcat.
      unfold Post_null_category in Hcat. case_decide; [discriminate|].
      destruct (elem_of_fmap_key Category.id (categories s) cid)
        as (r & Hr & <-); [by eapply fk_post_category|].
      apply list_elem_of_fmap_2, list_elem_of_filter. split; [|done].
      congruence.
    + intros p' lid (p & -> & Hp)%list_elem_of_fmap Hloc.
      apply (fk_post_location s Hfk p); [done|].
      unfold Post_null_category in Hloc. by case_decide.
    + intros r Hr. rewrite fmap_same_key by apply Post_null_category_id.
      by apply Hfk.
    + intros r Hr. by apply Hfk.
Qed.

Lemma Category_delete_orphans_posts_witness :
  Post.category <$> posts (Category_delete travel demo)
  = [None; None; None; Some 2; None; None]
  ∧ PostDetailView.get_object (Category_delete travel demo) demo_now
      AnonymousUser 1 = Raise AttributeError.
Proof.
  split; [reflexivity|].
  destruct (proj1 (proj2 (Category_delete_orphans_posts demo demo_now travel
                            demo_wf
                            ltac:(apply (bool_decide_unpack _); by vm_compute)))
              (Post.mk 1 "Hello" "first post" 100 1 None (Some 1) "" true 90))
    as (p' & _ & _ & _ & _ & _ & Hraise);
    [apply (bool_decide_unpack _); by vm_compute|reflexivity|].
  by apply (Hraise AnonymousUser).
Defined.

(** X14: deleting a post takes exactly its comments with it.  The other
    posts and the comments on them stay; the post's detail page and every
    edit or delete of one of its comments is Not-Found from then on; keys and
    references stay consistent. *)
Theorem Post_delete_cascades `{FormValidation} (s : Store) (p : Post.t) :
  wf_store s → p ∈ posts s →
  let s' := Post_delete p s in
  (∀ q, q ∈ posts s' ↔ q ∈ posts s ∧ q ≠ p)
  ∧ (∀ c, c ∈ comments s' ↔ c ∈ comments s ∧ Comment.post c ≠ Post.id p)
  ∧ (∀ now u, PostDetailView.get_object s' now u (Post.id p) = Raise Http404)
  ∧ (∀ now request comment_id,
       is_authenticated (user request) = true →
       edit_comment now request (Post.id p, comment_id) s' = (Raise Http404, s')
       ∧ delete_comment request (Post.id p, comment_id) s' = (Raise Http404, s'))
  ∧ wf_store s'
  ∧ (fk_ok s → fk_ok s').
Proof.
  intros Hwf Hp s'.
  assert (∀ q, q ∈ posts s' ↔ q ∈ posts s ∧ q ≠ p) as Hposts.
  { intros q. unfold s'. simpl. rewrite list_elem_of_filter. split.
    - intros [Hid Hq]. split; [done|]. congruence.
    - intros [Hq Hne]. split; [|done]. intros Hid. apply Hne.
      by apply (unique_by_eq Post.id (posts s)); [apply Hwf|..]. }
  assert (∀ c, c ∈ comments s' ↔ c ∈ comments s ∧ Comment.post c ≠ Post.id p)
    as Hcomments.
  { intros c. unfold s'. simpl. rewrite list_elem_of_filter. tauto. }
  assert (wf_store s') as Hwf'.
  { destruct Hwf. split; simpl; try done; by apply unique_by_filter. }
  split_and!; try done.
  - intros now u. unfold PostDetailView.get_object.
    rewrite get_object_or_404_missing; [done|].
    intros q Hq Hid. apply Hposts in Hq as [Hq Hne]. apply Hne.
    by apply (unique_by_eq Post.id (posts s)); [apply Hwf|..].
  - intros now request comment_id Hauth.
    assert (∀ c, c ∈ comments s' →
                 ¬ (Comment.id c = comment_id ∧ Comment.post c = Post.id p))
      as Hno by (intros c Hc [_ Hpost]; by apply Hcomments in Hc as [_ ?]).
    split.
    + by apply edit_comment_missing.
    + by apply delete_comment_missing.
  - intros Hfk. split; simpl.
    + intros q Hq. apply list_elem_of_filter in Hq as [_ Hq]. by apply Hfk.
    + intros q cid Hq. apply list_elem_of_filter in Hq as [_ Hq].
      by apply Hfk.
    + intros q lid Hq. apply list_elem_of_filter in Hq as [_ Hq].
      by apply Hfk.
    + intros c Hc. apply list_elem_of_filter in Hc as [Hne Hc].
      destruct (elem_of_fmap_key Post.id (posts s) (Comment.post c))
        as (q & Hq & Hid); [by apply Hfk|].
      rewrite <- Hid. apply list_elem_of_fmap_2, list_elem_of_filter.
      split; [congruence|done].
    + intros c Hc. apply list_elem_of_filter in Hc as [_ Hc]. by apply Hfk.
Qed.

Lemma Post_delete_cascades_witness :
  Comment.id <$> comments
    (Post_delete (Post.mk 1 "Hello" "first post" 100 1 None (Some 1) "" true 90)
                 demo) = [3]
  ∧ PostDetailView.get_object
      (Post_delete (Post.mk 1 "Hello" "first post" 100 1 None (Some 1) "" true 90)
                   demo) demo_now (AuthUser alice) 1 = Raise Http404.
Proof.
  split; [reflexivity|].
  apply (proj1 (proj2 (proj2 (@Post_delete_cascades demo_forms demo
           (Post.mk 1 "Hello" "first post" 100 1 None (Some 1) "" true 90)
           demo_wf ltac:(apply (bool_decide_unpack _); by vm_compute))))).
Defined.

(** X15: deleting a user takes the user's posts, every comment on those
    posts and every comment the user wrote, and nothing else; the user's
    profile page is Not-Found afterwards; keys and references stay
    consistent. *)
Theorem User_delete_cascades (s : Store) (u : User.t) :
  wf_store s → u ∈ users s →
  let s' := User_delete u s in
  (∀ r, r ∈ users s' ↔ r ∈ users s ∧ r ≠ u)
  ∧ (∀ p, p ∈ posts s' ↔ p ∈ posts s ∧ Post.author p ≠ User.id u)
  ∧ (∀ c, c ∈ comments s' ↔
          c ∈ comments s ∧ Comment.author c ≠ User.id u
          ∧ ¬ (∃ p, p ∈ posts s ∧ Post.author p = User.id u
                    ∧ Comment.post c = Post.id p))
  ∧ (∀ request,
       ProfileListView.get s' request (User.username u) = Raise Http404)
  ∧ wf_store s'
  ∧ (fk_ok s → fk_ok s').
Proof.
  intros Hwf Hu s'.
  assert (∀ r, r ∈ users s' ↔ r ∈ users s ∧ r ≠ u) as Husers.
  { intros r. unfold s'. simpl. rewrite list_elem_of_filter. split.
    - intros [Hid Hr]. split; [done|]. congruence.
    - intros [Hr Hne]. split; [|done]. intros Hid. apply Hne.
      by apply (unique_by_eq User.id (users s)); [apply Hwf|..]. }
  assert (∀ c, c ∈ comments s' ↔
               c ∈ comments s ∧ Comment.author c ≠ User.id u
               ∧ ¬ (∃ p, p ∈ posts s ∧ Post.author p = User.id u
                         ∧ Comment.post c = Post.id p)) as Hcomments.
  { intros c. unfold s'. simpl. rewrite list_elem_of_filter.
    rewrite list_elem_of_fmap. split.
    - intros ((Ha & Hnot) & Hc). split_and!; try done.
      intros (p & Hp & Hpa & Hid). apply Hnot. exists p. split; [done|].
      by apply list_elem_of_filter.
    - intros (Hc & Ha & Hnot). split_and!; try done.
      intros (p & Hid & Hp). apply list_elem_of_filter in Hp as [Hpa Hp].
      apply Hnot. eauto. }
  assert (wf_store s') as Hwf'.
  { destruct Hwf. split; simpl; try done; by apply unique_by_filter. }
  split_and!; try done.
  - intros p. unfold s'. simpl. rewrite list_elem_of_filter. tauto.
  - intros request. unfold ProfileListView.get.
    apply paginate_queryset_Http404. intros page.
    unfold ProfileListView.get_context_data.
    rewrite get_object_or_404_missing; [done|].
    intros r Hr Hname. apply Husers in Hr as [Hr Hne]. apply Hne.
    by apply (unique_by_eq User.username (users s)); [apply Hwf|..].
  - intros Hfk. split.
    + intros p Hp. simpl in Hp. apply list_elem_of_filter in Hp as [Hne Hp].
      destruct (elem_of_fmap_key User.id (users s) (Post.author p))
        as (r & Hr & Hid); [by apply Hfk|].
      rewrite <- Hid. apply list_elem_of_fmap_2, Husers. split; [done|].
      intros ->. done.
    + intros p cid Hp. simpl in Hp. apply list_elem_of_filter in Hp as [_ Hp].
      by apply Hfk.
    + intros p lid Hp. simpl in Hp. apply list_elem_of_filter in Hp as [_ Hp].
      by apply Hfk.
    + intros c Hc. apply Hcomments in Hc as (Hc & Ha & Hnot).
      destruct (elem_of_fmap_key Post.id (posts s) (Comment.post c))
        as (q & Hq & Hid); [by apply Hfk|].
      rewrite <- Hid. simpl. apply list_elem_of_fmap_2, list_elem_of_filter.
      split; [|done]. intros Hqa. apply Hnot. eauto.
    + intros c Hc. apply Hcomments in Hc as (Hc & Ha & _).
      destruct (elem_of_fmap_key User.id (users s) (Comment.author c))
        as (r & Hr & Hid); [by apply Hfk|].
      rewrite <- Hid. apply list_elem_of_fmap_2, Husers. split; [done|].
      intros ->. done.
Qed.

Lemma User_delete_cascades_witness :
  Post.id <$> posts (User_delete alice demo) = [4; 5; 6]
  ∧ Comment.id <$> comments (User_delete alice demo) = []
  ∧ ProfileListView.get (User_delete alice demo)
      (demo_request AnonymousUser GET []) "alice" = Raise Http404.
Proof.
  split; [reflexivity|]. split; [reflexivity|].
  apply (proj1 (proj2 (proj2 (proj2 (User_delete_cascades demo alice demo_wf
           ltac:(apply (bool_decide_unpack _); by vm_compute)))))).
Defined.

(** ** Editing one's profile *)

(** X17: the profile form is always applied to the requester's own row.  An
    invalid form shows the page again and writes nothing.  A valid one
    replaces that one row, every other user, post and comment staying as it
    was, and redirects to the profile page under the new user name; if nobody
    else has that name the page exists and lists the same posts as before. *)
Theorem edit_profile_changes_own_row `{ProfileFormValidation} (s : Store)
    (request : Request) (u : User.t) :
  wf_store s → u ∈ users s → user request = AuthUser u →
  method request = POST →
  (∀ errors,
     ProfileForm_full_clean s u (POST_data request) = inl errors →
     EditProfileUpdateView_dispatch request s
     = (Return (TemplateResponse "blog/user.html"
                  (FormContext (Some (POST_data request)) errors None)), s))
  ∧ (∀ name,
       ProfileForm_full_clean s u (POST_data request) = inr name →
       let u' := User.mk (User.id u) name in
       let s' := set_users s
                   ((λ r, if decide (User.id r = User.id u) then u' else r)
                      <$> users s) in
       EditProfileUpdateView_dispatch request s
       = (Return (HttpResponseRedirect (blog_profile name)), s')
       ∧ (∀ r, r ∈ users s' ↔ r = u' ∨ (r ∈ users s ∧ r ≠ u))
       ∧ posts s' = posts s ∧ comments s' = comments s
       ∧ ((∀ r, r ∈ users s → r ≠ u → User.username r ≠ name) →
          wf_store s'
          ∧ ProfileListView.get_context_data s' name = Return u'
          ∧ ∀ p, p ∈ obj <$> ProfileListView.get_queryset s' name ↔
                 p ∈ obj <$> ProfileListView.get_queryset s (User.username u))).
Proof.
  intros Hwf Hu Huser Hm.
  assert (EditProfileUpdateView_dispatch request s
          = match ProfileForm_full_clean s u (POST_data request) with
            | inr username =>
                (Return (HttpResponseRedirect (blog_profile username)),
                 set_users s (save_row User.id
                                (User.mk (User.id u) username) (users s)))
            | inl errors =>
                (Return (TemplateResponse "blog/user.html"
                           (FormContext (Some (POST_data request)) errors
                                        None)), s)
            end) as Heq.
  { unfold EditProfileUpdateView_dispatch, LoginRequiredMixin_dispatch,
      EditProfileUpdateView_get_object.
    rewrite Huser. simpl. rewrite Hm.
    by destruct (ProfileForm_full_clean s u (POST_data request)). }
  rewrite Heq. clear Heq. split.
  - intros errors Hclean. by rewrite Hclean.
  - intros name Hclean u' s'. rewrite Hclean.
    rewrite save_row_update by (by apply (list_elem_of_fmap_2 User.id _ u)).
    assert (∀ r, r ∈ users s' ↔ r = u' ∨ (r ∈ users s ∧ r ≠ u)) as Hmem.
    { intros r. unfold s'. simpl. rewrite list_elem_of_fmap. split.
      - intros (r0 & -> & Hr0). case_decide as Hid; [by left|right].
        split; [done|]. congruence.
      - intros [->|[Hr Hne]].
        + exists u. by rewrite decide_True.
        + exists r. split; [|done]. rewrite decide_False; [done|].
          intros Hid. apply Hne.
          by apply (unique_by_eq User.id (users s)); [apply Hwf|..]. }
    split_and!; try done.
    intros Hfree.
    assert (wf_store s') as Hwf'.
    { destruct Hwf. split; simpl; try done.
      - unfold unique_by. rewrite fmap_same_key; [done|].
        intros r. by case_decide.
      - unfold unique_by. apply NoDup_fmap_2_strong.
        + intros x y Hx%Hmem Hy%Hmem Hname.
          destruct Hx as [->|[Hx Hxu]], Hy as [->|[Hy Hyu]]; try done.
          * exfalso. by apply (Hfree y).
          * exfalso. by apply (Hfree x).
          * by apply (unique_by_eq User.username (users s)).
        + apply (unique_by_NoDup User.id). unfold unique_by.
          rewrite fmap_same_key; [done|]. intros r. by case_decide. }
    assert (u' ∈ users s') as Hu' by (apply Hmem; by left).
    split_and!; try done.
    + unfold ProfileListView.get_context_data.
      apply (get_object_or_404_unique _ User.username); try done.
      apply Hwf'.
    + intros p. unfold ProfileListView.get_queryset.
      rewrite !feed_rows, !list_elem_of_filter.
      pose proof (author__username_iff s' u' p Hwf' Hu') as Hnew.
      simpl in Hnew. rewrite Hnew.
      by rewrite (author__username_iff s u p).
Qed.

Lemma edit_profile_changes_own_row_witness :
  @EditProfileUpdateView_dispatch demo_profile_forms
    (demo_request (AuthUser bob) POST [("username", "robert")]) demo
  = (Return (HttpResponseRedirect (blog_profile "robert")),
     set_users demo [alice; User.mk 2 "robert"]).
Proof.
  exact (proj1 (proj2 (@edit_profile_changes_own_row demo_profile_forms demo
                         (demo_request (AuthUser bob) POST
                            [("username", "robert")]) bob demo_wf
                         ltac:(apply (bool_decide_unpack _); by vm_compute)
                         eq_refl eq_refl) "robert" eq_refl)).
Defined.

(** ** Editing and deleting a post *)

(** X19: behind the login check, the edit and delete views of a post answer
    Not-Found for an unknown key without writing, and hand the request of the
    post's author over to the inherited view unchanged. *)
Theorem post_edit_dispatch_cases (s : Store) (request : Request) (u : User.t)
    (super_dispatch : Request → nat → View HttpResponse) (pk : nat) :
  user request = AuthUser u →
  ((∀ p, p ∈ posts s → Post.id p ≠ pk) →
   PostUpdateView.dispatch super_dispatch request pk s = (Raise Http404, s)
   ∧ PostDeleteView.dispatch super_dispatch request pk s = (Raise Http404, s))
  ∧ (wf_store s →
     ∀ p, p ∈ posts s → Post.id p = pk → Post.author p = User.id u →
          PostUpdateView.dispatch super_dispatch request pk s
          = super_dispatch request pk s
          ∧ PostDeleteView.dispatch super_dispatch request pk s
            = super_dispatch request pk s).
Proof.
  intros Hu.
  unfold PostUpdateView.dispatch, PostDeleteView.dispatch,
    LoginRequiredMixin_dispatch, DispatchPostMixin.dispatch, vbind, vlift.
  rewrite Hu. simpl. split.
  - intros Hno. by rewrite get_object_or_404_missing.
  - intros Hwf p Hp <- Ha. rewrite get_post_by_pk by done.
    rewrite Ha, bool_decide_true by done. simpl.
    by destruct (super_dispatch request (Post.id p) s).
Qed.

Lemma post_edit_dispatch_cases_witness :
  PostUpdateView.dispatch (λ _ _ s, (Raise PermissionDenied, s))
    (demo_request (AuthUser bob) GET []) 42 demo
  = (Raise Http404, demo)
  ∧ PostDeleteView.dispatch (λ _ _ s, (Raise PermissionDenied, s))
      (demo_request (AuthUser bob) GET []) 6 demo
    = (Raise PermissionDenied, demo).
Proof.
  split.
  - apply (proj1 (post_edit_dispatch_cases demo
                    (demo_request (AuthUser bob) GET []) bob
                    (λ _ _ s, (Raise PermissionDenied, s)) 42 eq_refl)).
    intros p Hp. each_row Hp; discriminate.
  - apply (proj2 (post_edit_dispatch_cases demo
                    (demo_request (AuthUser bob) GET []) bob
                    (λ _ _ s, (Raise PermissionDenied, s)) 6 eq_refl) demo_wf
             (Post.mk 6 "Trip" "second author" 400 2 None (Some 1) "" true 390));
      [|reflexivity..].
    apply (bool_decide_unpack _). by vm_compute.
Defined.
